(** * PI-USB-Data-Safegate: device monitor, processing pipeline,
      cleanup scheduler and status record

    A shallow embedding of the Python sources
    - [modules/status_manager.py]   (module [StatusManager]),
    - [modules/usb_monitor.py]      (module [USBMonitor]),
    - [daemon.py]                   (module [Daemon]),
    - [modules/cleanup_scheduler.py] (modules [Datetime] and [CleanupScheduler]),
    followed by sample data and by the properties proved of them: first
    those the design document states (C1 to C10), then further properties
    read off the code (X1 to X20).

    Conventions.  Python dictionaries with a fixed set of keys are records;
    [set] is [gset], a dictionary used as a map is [gmap]; Python lists are
    lists.  Calls that leave the process (subprocesses, the file system, the
    network, the clock, the operator's dialog) are answered by an explicit
    record of answers, or by an abstract world that is threaded through the
    calls.  Callbacks and collaborator calls are recorded in a trace, in the
    order in which the code performs them. *)

From Stdlib Require Import ZArith String Ascii List Lia Bool.
From stdpp Require Import base gmap strings list pretty.
Import ListNotations.

Local Open Scope string_scope.
Local Open Scope list_scope.

(** Python's truth value of a [str]: the empty string is false. *)
Definition str_truthy (s : string) : bool :=
  match s with
  | EmptyString => false
  | String _ _ => true
  end.

(** Python's truth value of an optional [str] ([None] or a string). *)
Definition opt_truthy (o : option string) : bool :=
  match o with
  | None => false
  | Some s => str_truthy s
  end.

(** [l[-n:]] for a positive [n]: the last [n] elements, the whole list when it
    is shorter. *)
Definition slice_last {A : Type} (n : nat) (l : list A) : list A :=
  drop (length l - n) l.

(** The outcome of a call that may raise: the value returned, or the text of
    the exception. *)
Inductive result (A : Type) : Type :=
| Returned (a : A)
| Raised (e : string).

Arguments Returned {A} a.
Arguments Raised {A} e.

(* ===================================================================== *)
(** ** modules/status_manager.py *)
(* ===================================================================== *)

Module StatusManager.

(** One element of [current_status['errors']]. *)
Record error_entry : Type := mk_error_entry {
  timestamp : string;
  err_message : string
}.

(** [self.current_status]. *)
Record status : Type := mk_status {
  daemon_status : string;
  last_activity : option string;
  message : string;
  processing_count : Z;
  errors : list error_entry;
  uptime : option string
}.

(** [__init__]: the initial record. *)
Definition init : status :=
  {| daemon_status := "stopped";
     last_activity := None;
     message := "Service not started";
     processing_count := 0;
     errors := [];
     uptime := None |}.

(** [set_status(message, status)]; [now] is [datetime.now().isoformat()]
    and [up] is [str(datetime.now() - self.start_time)].  The call to
    [_save_status] writes the record to the status file and leaves
    [current_status] as it is. *)
Definition set_status (st : status) (msg phase now up : string) : status :=
  {| daemon_status := phase;
     last_activity := Some now;
     message := msg;
     processing_count := processing_count st;
     errors := errors st;
     uptime := Some up |}.

(** [add_error(error_message)]: append, then keep the last ten. *)
Definition add_error (st : status) (now error_message : string) : status :=
  let entry := {| timestamp := now; err_message := error_message |} in
  let appended := errors st ++ [entry] in
  let kept :=
    if (10 <? length appended)%nat then slice_last 10 appended
    else appended in
  {| daemon_status := daemon_status st;
     last_activity := last_activity st;
     message := message st;
     processing_count := processing_count st;
     errors := kept;
     uptime := uptime st |}.

(** [increment_processing_count()]. *)
Definition increment_processing_count (st : status) : status :=
  {| daemon_status := daemon_status st;
     last_activity := last_activity st;
     message := message st;
     processing_count := processing_count st + 1;
     errors := errors st;
     uptime := uptime st |}.

(** [get_status()] returns a copy and leaves the record as it is. *)
Definition get_status (st : status) : status * status := (st, st).

(** The operations of a [StatusManager] after its construction. *)
Inductive op : Type :=
| SetStatus (msg phase now up : string)
| AddError (now error_message : string)
| IncrementProcessingCount
| GetStatus.

Definition step (st : status) (o : op) : status :=
  match o with
  | SetStatus msg phase now up => set_status st msg phase now up
  | AddError now m => add_error st now m
  | IncrementProcessingCount => increment_processing_count st
  | GetStatus => fst (get_status st)
  end.

Definition run (ops : list op) : status := fold_left step ops init.

Definition is_add_error (o : op) : bool :=
  match o with AddError _ _ => true | _ => false end.

(** The error records added by a sequence of operations, oldest first. *)
Fixpoint added_errors (ops : list op) : list error_entry :=
  match ops with
  | [] => []
  | AddError now m :: ops' =>
      {| timestamp := now; err_message := m |} :: added_errors ops'
  | _ :: ops' => added_errors ops'
  end.

Definition is_increment (o : op) : bool :=
  match o with IncrementProcessingCount => true | _ => false end.

Definition is_set_status (o : op) : bool :=
  match o with SetStatus _ _ _ _ => true | _ => false end.

End StatusManager.

(* ===================================================================== *)
(** ** modules/usb_monitor.py *)
(* ===================================================================== *)

Module USBMonitor.

(** The dictionary built by [_get_usb_storage_devices] and
    [_get_device_info]; [mount_point] is [None] or the mount directory. *)
Record device_info : Type := mk_device_info {
  device : string;
  size : string;
  label : string;
  mount_point : option string;
  transport : string
}.

#[export] Instance device_info_eq_dec : EqDecision device_info.
Proof. solve_decision. Defined.

(** [self.known_devices] and [self.device_info_cache]. *)
Record monitor : Type := mk_monitor {
  known_devices : gset string;
  device_info_cache : gmap string device_info
}.

(** [__init__]. *)
Definition init : monitor :=
  {| known_devices := ∅; device_info_cache := ∅ |}.

(** The two callbacks handed to the monitor; the trace of a run is the list
    of the calls made, each with the snapshot it received.  The callbacks are
    the daemon's [on_usb_inserted] and [on_usb_removed], which log, set the
    status and enqueue, and return. *)
Inductive callback : Type :=
| OnInsert (d : device_info)
| OnRemove (d : device_info).

(** What the operating system answers at the time of one signal:
    - [usb_storage_devices]: the list returned by [_get_usb_storage_devices]
      (empty when [lsblk] fails);
    - [is_usb_storage_device path]: the verdict of [udevadm];
    - [lsblk_row path]: the words of the second line printed by
      [lsblk -o SIZE,LABEL,MOUNTPOINT path], [None] when the command fails or
      prints fewer than two lines;
    - [is_device_mounted path]: whether [findmnt path] exits with 0, asked
      after the one-second grace period. *)
Record system : Type := mk_system {
  usb_storage_devices : list device_info;
  is_usb_storage_device : string -> bool;
  lsblk_row : string -> option (list string);
  is_device_mounted : string -> bool
}.

(** A step of the monitor: the new state and the callbacks fired. *)
Definition action : Type := monitor -> monitor * list callback.

Definition skip : action := fun st => (st, []).

Definition and_then (a b : action) : action :=
  fun st =>
    let '(st1, t1) := a st in
    let '(st2, t2) := b st1 in
    (st2, t1 ++ t2).

(** [for x in l: body(x)]. *)
Fixpoint for_each {A : Type} (body : A -> action) (l : list A) : action :=
  match l with
  | [] => skip
  | x :: l' => and_then (body x) (for_each body l')
  end.

(** [_get_device_info(device_path)]. *)
Definition get_device_info (sys : system) (device_path : string)
  : option device_info :=
  match lsblk_row sys device_path with
  | None => None
  | Some parts =>
      Some {| device := device_path;
              size := match parts !! 0%nat with
                      | Some p => p
                      | None => "Unknown"
                      end;
              label := match parts !! 1%nat with
                       | Some p => if str_truthy p then p else "Unlabeled"
                       | None => "Unlabeled"
                       end;
              mount_point := match parts !! 2%nat with
                             | Some p => if str_truthy p then Some p else None
                             | None => None
                             end;
              transport := "usb" |}
  end.

(** [_device_inserted(device_info)]: track the path, cache the snapshot,
    wait, and fire the insert callback when the device is mounted. *)
Definition device_inserted (sys : system) (info : device_info) : action :=
  fun st =>
    let st' :=
      {| known_devices := {[device info]} ∪ known_devices st;
         device_info_cache := <[device info := info]> (device_info_cache st) |} in
    if is_device_mounted sys (device info)
    then (st', [OnInsert info])
    else (st', []).

(** [_device_removed(device_info)]. *)
Definition device_removed (info : device_info) : action :=
  fun st =>
    ({| known_devices := known_devices st ∖ {[device info]};
        device_info_cache := device_info_cache st |},
     [OnRemove info]).

(** [del self.device_info_cache[device_path]]. *)
Definition del_cache (device_path : string) : action :=
  fun st =>
    ({| known_devices := known_devices st;
        device_info_cache := delete device_path (device_info_cache st) |}, []).

(** [_handle_device_add(device)]; [device_node] is [device.device_node]. *)
Definition handle_device_add (sys : system) (device_node : option string)
  : action :=
  match device_node with
  | None => skip
  | Some device_path =>
      if negb (str_truthy device_path) then skip
      else if is_usb_storage_device sys device_path then
        match get_device_info sys device_path with
        | Some info => device_inserted sys info
        | None => skip
        end
      else skip
  end.

(** [_handle_device_remove(device)]. *)
Definition handle_device_remove (device_node : option string) : action :=
  match device_node with
  | None => skip
  | Some device_path =>
      if negb (str_truthy device_path) then skip
      else fun st =>
        match device_info_cache st !! device_path with
        | Some info =>
            and_then (device_removed info) (del_cache device_path) st
        | None => skip st
        end
  end.

(** One notification of the event source: [device.action] and
    [device.device_node]. *)
Record udev_event : Type := mk_udev_event {
  udev_action : string;
  device_node : option string
}.

(** The body of the loop of [_monitor_with_pyudev] for one notification. *)
Definition handle_event (sys : system) (ev : udev_event) : action :=
  if String.eqb (udev_action ev) "add" then
    handle_device_add sys (device_node ev)
  else if String.eqb (udev_action ev) "remove" then
    handle_device_remove (device_node ev)
  else skip.

(** [_monitor_with_pyudev] over the notifications received while running,
    each with the answers of the system at that time. *)
Definition monitor_with_pyudev (signals : list (system * udev_event))
  : action :=
  for_each (fun s => handle_event (fst s) (snd s)) signals.

(** [set(dev['device'] for dev in devices)]. *)
Definition device_paths (devices : list device_info) : gset string :=
  list_to_set (device <$> devices).

(** [next((dev for dev in current_devices if dev['device'] == path), None)]. *)
Definition find_device (devices : list device_info) (device_path : string)
  : option device_info :=
  List.find (fun dev => bool_decide (device dev = device_path)) devices.

(** The first loop of a polling cycle, over [new_devices]. *)
Definition poll_inserted (sys : system) (new_devices : list string) : action :=
  for_each
    (fun device_path =>
       match find_device (usb_storage_devices sys) device_path with
       | Some info => device_inserted sys info
       | None => skip
       end)
    new_devices.

(** The handling of one element of [removed_devices]. *)
Definition poll_removed_one (device_path : string) : action :=
  fun st =>
    match device_info_cache st !! device_path with
    | Some info => and_then (device_removed info) (del_cache device_path) st
    | None => skip st
    end.

(** The second loop of a polling cycle, over [removed_devices]. *)
Definition poll_removed (removed_devices : list string) : action :=
  for_each poll_removed_one removed_devices.

(** [self.known_devices = current_device_paths], then the refresh of the
    cache from [current_devices]. *)
Definition poll_reconcile (sys : system) : action :=
  fun st =>
    ({| known_devices := device_paths (usb_storage_devices sys);
        device_info_cache :=
          fold_left (fun cache dev => <[device dev := dev]> cache)
                    (usb_storage_devices sys) (device_info_cache st) |}, []).

(** One cycle of [_monitor_with_polling].  The sets are walked in the order
    of [elements]. *)
Definition poll_cycle (sys : system) : action :=
  fun st =>
    let current_device_paths := device_paths (usb_storage_devices sys) in
    let new_devices := elements (current_device_paths ∖ known_devices st) in
    let '(st1, t1) := poll_inserted sys new_devices st in
    let removed_devices :=
      elements (known_devices st1 ∖ current_device_paths) in
    let '(st2, t2) := poll_removed removed_devices st1 in
    let '(st3, t3) := poll_reconcile sys st2 in
    (st3, t1 ++ t2 ++ t3).

(** [_monitor_with_polling] over the cycles made while running. *)
Definition monitor_with_polling (cycles : list system) : action :=
  for_each poll_cycle cycles.

(** [_scan_existing_devices()]. *)
Definition scan_existing_devices (sys : system) : action :=
  fun st =>
    ({| known_devices := device_paths (usb_storage_devices sys);
        device_info_cache :=
          fold_left (fun cache dev => <[device dev := dev]> cache)
                    (usb_storage_devices sys) (device_info_cache st) |}, []).

(** The insert callbacks of a trace that carry the given device path. *)
Definition insert_callbacks (device_path : string) (t : list callback)
  : list device_info :=
  omap (fun c => match c with
                 | OnInsert d =>
                     if bool_decide (device d = device_path) then Some d
                     else None
                 | OnRemove _ => None
                 end) t.

Section Enumeration.

(** [name.strip('...')] with the tree-drawing characters of [lsblk] and the
    blank. *)
Variable strip_tree : string -> string.

(** [self._is_usb_storage_device(path)]. *)
Variable is_usb_storage : string -> bool.

(** The body of the loop of [_get_usb_storage_devices] for one line of
    [lsblk -o NAME,SIZE,LABEL,MOUNTPOINT,TYPE,TRAN], given as the words of
    [line.split()]: the snapshot appended, if any. *)
Definition device_of_row (parts : list string) : option device_info :=
  match parts with
  | p0 :: p1 :: p2 :: p3 :: p4 :: p5 :: _ =>
      let name := strip_tree p0 in
      let label := if String.eqb p2 "" then "Unlabeled" else p2 in
      let mount_point := if String.eqb p3 "" then None else Some p3 in
      if String.eqb p4 "part" && String.eqb p5 "usb"
         && opt_truthy mount_point && is_usb_storage ("/dev/" +:+ name)
      then Some {| device := "/dev/" +:+ name;
                   size := p1;
                   label := label;
                   mount_point := mount_point;
                   transport := p5 |}
      else None
  | _ => None
  end.

(** [_get_usb_storage_devices()] on the lines printed after the header. *)
Definition get_usb_storage_devices (rows : list (list string))
  : list device_info :=
  omap device_of_row rows.

End Enumeration.

(** What the monitor reacts to during its life: the scan made by [start],
    a notification of the event source, a polling cycle; each comes with the
    answers of the system at that time. *)
Inductive signal : Type :=
| ScanExisting (sys : system)
| UdevEvent (sys : system) (ev : udev_event)
| PollCycle (sys : system).

Definition handle_signal (s : signal) : action :=
  match s with
  | ScanExisting sys => scan_existing_devices sys
  | UdevEvent sys ev => handle_event sys ev
  | PollCycle sys => poll_cycle sys
  end.

(** The monitor over a sequence of signals. *)
Definition run (signals : list signal) : action :=
  for_each handle_signal signals.

(** Every known path is cached, and every snapshot is cached under its own
    device path. *)
Definition well_tracked (st : monitor) : Prop :=
  (forall p, p ∈ known_devices st -> is_Some (device_info_cache st !! p)) /\
  (forall p d, device_info_cache st !! p = Some d -> device d = p).

(** The callback [c] is not a removal callback for the path [p]. *)
Definition not_removal_of (p : string) (c : callback) : Prop :=
  match c with
  | OnInsert _ => True
  | OnRemove d => device d <> p
  end.

(** The callback [c] is not an insert callback for the path [p]. *)
Definition not_insert_of (p : string) (c : callback) : Prop :=
  match c with
  | OnInsert d => device d <> p
  | OnRemove _ => True
  end.

End USBMonitor.

(* ===================================================================== *)
(** ** daemon.py: the per-device pipeline *)
(* ===================================================================== *)

Module Daemon.

(** An element of [scan_result['infected_files']]. *)
Record infected_file : Type := mk_infected_file {
  file : string;
  threat : string
}.

(** The dictionary returned by [scanner.scan_directory]. *)
Record scan_result : Type := mk_scan_result {
  infected_files : list infected_file;
  safe_files : list string
}.

(** The dictionary returned by [uploader.upload_file]: with ['success']
    true it carries the remote path, otherwise the error text. *)
Inductive upload_result : Type :=
| UploadSucceeded (remote_path remote_filename upload_url : string)
| UploadFailed (error : string).

(** The answers of the collaborators to the calls of one job. *)
Record collaborators : Type := mk_collaborators {
  os_path_exists : string -> bool;
  scan_directory : string -> result scan_result;
  create_zip : list string -> result (option string);
  upload_file : string -> result upload_result;
  create_public_share : string -> result (option string);
  get_email_address : option string;
  send_notification : string -> string -> string -> result bool
}.

(** The calls made by a job, in order. *)
Inductive event : Type :=
| SetStatus (message phase : string)
| ScanDirectory (mount_point : string)
| ShowMalwareWarning (infected : list infected_file)
| CreateZip (files : list string)
| UploadFile (zip_path : string)
| CreatePublicShare (remote_path : string)
| GetEmailAddress
| SendNotification (email_address share_link zip_path : string)
| ScheduleDeletion (file_path download_link : string).

(** How a block of statements ends: it falls through with a value, it
    executes [return], or it raises. *)
Inductive flow (A : Type) : Type :=
| Next (a : A)
| Return
| Throw (e : string).

Arguments Next {A} a.
Arguments Return {A}.
Arguments Throw {A} e.

(** A block of statements: the calls made and the way it ends. *)
Definition proc (A : Type) : Type := list event * flow A.

Definition bind {A B : Type} (c : proc A) (k : A -> proc B) : proc B :=
  match c with
  | (t, Next a) => let '(t', f) := k a in (t ++ t', f)
  | (t, Return) => (t, Return)
  | (t, Throw e) => (t, Throw e)
  end.

Definition emit (e : event) : proc unit := ([e], Next tt).

Definition call {A : Type} (e : event) (r : result A) : proc A :=
  ([e], match r with Returned a => Next a | Raised x => Throw x end).

Definition return_ {A : Type} : proc A := ([], Return).

Definition pass : proc unit := ([], Next tt).

#[export] Instance proc_bind : MBind proc := fun A B k c => bind c k.

(** The body of the [try] of [_process_usb_drive(device_info)]. *)
Definition process_usb_drive_body (c : collaborators)
  (device_info : USBMonitor.device_info) : proc unit :=
  match USBMonitor.mount_point device_info with
  | None => return_
  | Some mount_point =>
    if negb (str_truthy mount_point) || negb (os_path_exists c mount_point)
    then return_
    else
      emit (SetStatus ("Scanning files in " +:+ mount_point) "scanning") ;;
      scan ← call (ScanDirectory mount_point)
                   (scan_directory c mount_point) ;
      match infected_files scan with
      | _ :: _ =>
          emit (SetStatus ("Malware detected! "
                           +:+ pretty (length (infected_files scan))
                           +:+ " infected files") "error") ;;
          emit (ShowMalwareWarning (infected_files scan)) ;;
          return_
      | [] =>
        match safe_files scan with
        | [] =>
            emit (SetStatus "No files found on USB drive" "idle") ;;
            return_
        | _ :: _ =>
          emit (SetStatus ("Creating archive from "
                           +:+ pretty (length (safe_files scan))
                           +:+ " files") "processing") ;;
          zip ← call (CreateZip (safe_files scan))
                      (create_zip c (safe_files scan)) ;
          match zip with
          | None =>
              emit (SetStatus "Failed to create archive" "error") ;; return_
          | Some zip_path =>
            if negb (str_truthy zip_path) then
              emit (SetStatus "Failed to create archive" "error") ;; return_
            else
              emit (SetStatus "Uploading to Nextcloud" "uploading") ;;
              upload ← call (UploadFile zip_path) (upload_file c zip_path) ;
              match upload with
              | UploadFailed error =>
                  emit (SetStatus ("Upload failed: " +:+ error) "error") ;;
                  return_
              | UploadSucceeded remote_path _ _ =>
                emit (SetStatus "Generating public share link" "processing") ;;
                share ← call (CreatePublicShare remote_path)
                              (create_public_share c remote_path) ;
                if negb (opt_truthy share) then
                  emit (SetStatus "Failed to create share link" "error") ;;
                  return_
                else
                  let share_link := default "" share in
                  email ← call GetEmailAddress
                                (Returned (get_email_address c)) ;
                  if negb (opt_truthy email) then
                    emit (SetStatus "No email address provided" "warning") ;;
                    return_
                  else
                    let email_address := default "" email in
                    emit (SetStatus "Sending email notification"
                                    "processing") ;;
                    email_sent ←
                      call (SendNotification email_address share_link zip_path)
                           (send_notification c email_address share_link
                                              zip_path) ;
                    if email_sent : bool then
                      emit (SetStatus ("Email sent to " +:+ email_address)
                                      "success") ;;
                      emit (ScheduleDeletion remote_path share_link)
                    else
                      emit (SetStatus "Failed to send email" "error")
              end
          end
        end
      end
  end.

(** [_process_usb_drive(device_info)]: the body under its [except]. *)
Definition process_usb_drive (c : collaborators)
  (device_info : USBMonitor.device_info) : list event :=
  match process_usb_drive_body c device_info with
  | (t, Throw e) => t ++ [SetStatus ("Processing error: " +:+ e) "error"]
  | (t, _) => t
  end.

Definition is_schedule_deletion (e : event) : bool :=
  match e with ScheduleDeletion _ _ => true | _ => false end.

(** The events that produce an archive, an upload, a share link or a ledger
    entry. *)
Definition is_artifact_event (e : event) : bool :=
  match e with
  | CreateZip _ | UploadFile _ | CreatePublicShare _ | ScheduleDeletion _ _ =>
      true
  | _ => false
  end.

(** The last status set by a trace. *)
Definition last_status (t : list event) : option (string * string) :=
  last (omap (fun e => match e with
                       | SetStatus m p => Some (m, p)
                       | _ => None
                       end) t).

(** Every stage of the pipeline succeeds for the device, ending with the
    remote path [path] and the share link [link]. *)
Definition all_stages_succeed (c : collaborators)
  (dev : USBMonitor.device_info) (path link : string) : Prop :=
  exists mount scan zip remote_filename url email,
    USBMonitor.mount_point dev = Some mount /\
    str_truthy mount = true /\
    os_path_exists c mount = true /\
    scan_directory c mount = Returned scan /\
    infected_files scan = [] /\
    safe_files scan <> [] /\
    create_zip c (safe_files scan) = Returned (Some zip) /\
    str_truthy zip = true /\
    upload_file c zip = Returned (UploadSucceeded path remote_filename url) /\
    create_public_share c path = Returned (Some link) /\
    str_truthy link = true /\
    get_email_address c = Some email /\
    str_truthy email = true /\
    send_notification c email link zip = Returned true.

(** The scan ran on the device and reported at least one infected file. *)
Definition scan_reports_infection (c : collaborators)
  (dev : USBMonitor.device_info) (scan : scan_result) : Prop :=
  exists mount,
    USBMonitor.mount_point dev = Some mount /\
    str_truthy mount = true /\
    os_path_exists c mount = true /\
    scan_directory c mount = Returned scan /\
    infected_files scan <> [].

End Daemon.

(* ===================================================================== *)
(** ** The naive [datetime] values of the ledger *)
(* ===================================================================== *)

Module Datetime.

Local Open Scope Z_scope.

(** A naive [datetime] (no time zone), as its fields. *)
Record datetime : Type := mk_datetime {
  year : Z;
  month : Z;
  day : Z;
  hour : Z;
  minute : Z;
  second : Z;
  microsecond : Z
}.

#[export] Instance datetime_eq_dec : EqDecision datetime.
Proof. solve_decision. Defined.

Definition is_leap (y : Z) : bool :=
  (y mod 4 =? 0) && (negb (y mod 100 =? 0) || (y mod 400 =? 0)).

Definition days_in_month (y m : Z) : Z :=
  if m =? 2 then (if is_leap y then 29 else 28)
  else if (m =? 4) || (m =? 6) || (m =? 9) || (m =? 11) then 30
  else 31.

(** The values a [datetime] object can hold. *)
Definition valid (d : datetime) : bool :=
  (1 <=? year d) && (year d <=? 9999) &&
  (1 <=? month d) && (month d <=? 12) &&
  (1 <=? day d) && (day d <=? days_in_month (year d) (month d)) &&
  (0 <=? hour d) && (hour d <? 24) &&
  (0 <=? minute d) && (minute d <? 60) &&
  (0 <=? second d) && (second d <? 60) &&
  (0 <=? microsecond d) && (microsecond d <? 1000000).

(** Days before January 1st of year [y]. *)
Definition days_before_year (y : Z) : Z :=
  let p := y - 1 in p * 365 + p / 4 - p / 100 + p / 400.

(** Days of year [y] before the first day of month [m]. *)
Definition days_before_month (y m : Z) : Z :=
  fold_right Z.add 0
    (List.map (days_in_month y) (List.map Z.of_nat (seq 1 (Z.to_nat (m - 1))))).

(** [date.toordinal()]: January 1st of year 1 is day 1. *)
Definition toordinal (d : datetime) : Z :=
  days_before_year (year d) + days_before_month (year d) (month d) + day d.

(** Microseconds since the start of day 0. *)
Definition to_microseconds (d : datetime) : Z :=
  (((toordinal d * 24 + hour d) * 60 + minute d) * 60 + second d) * 1000000
  + microsecond d.

Definition microseconds_per_day : Z := 86400000000.

(** [(a - b).days]: a [timedelta] is normalised with its remainder between
    zero and one day, so its [days] is the quotient rounded down. *)
Definition days_between (a b : datetime) : Z :=
  (to_microseconds a - to_microseconds b) / microseconds_per_day.

(** The decimal digit of a number below ten. *)
Definition digit_char (n : Z) : ascii :=
  ascii_of_nat (48 + Z.to_nat n).

Definition digit_value (c : ascii) : option Z :=
  let n := Z.of_nat (nat_of_ascii c) in
  if (48 <=? n) && (n <=? 57) then Some (n - 48) else None.

(** [n] in [width] decimal digits, padded with zeros, followed by [rest]. *)
Fixpoint zero_padded (width : nat) (n : Z) (rest : string) : string :=
  match width with
  | O => rest
  | S w => zero_padded w (n / 10) (String (digit_char (n mod 10)) rest)
  end.

(** Reads exactly [width] decimal digits. *)
Fixpoint read_digits (width : nat) (s : string) : option (Z * string) :=
  match width with
  | O => Some (0, s)
  | S w =>
      match read_digits w s with
      | Some (hi, String c s') =>
          match digit_value c with
          | Some d => Some (hi * 10 + d, s')
          | None => None
          end
      | _ => None
      end
  end.

(** Reads the given character. *)
Definition read_char (c : ascii) (s : string) : option string :=
  match s with
  | String c' s' => if Ascii.eqb c c' then Some s' else None
  | EmptyString => None
  end.

(** [datetime.isoformat()] of a naive value:
    [YYYY-MM-DDTHH:MM:SS], followed by [.ffffff] when the microseconds are
    not zero. *)
Definition isoformat (d : datetime) : string :=
  zero_padded 4 (year d) (String "-" (
  zero_padded 2 (month d) (String "-" (
  zero_padded 2 (day d) (String "T" (
  zero_padded 2 (hour d) (String ":" (
  zero_padded 2 (minute d) (String ":" (
  zero_padded 2 (second d) (
    if microsecond d =? 0 then EmptyString
    else String "." (zero_padded 6 (microsecond d) EmptyString)))))))))))).

(** [datetime.fromisoformat(s)] on the two shapes that [isoformat] prints
    for a naive value, with any one character between date and time;
    [None] stands for [ValueError].  The further shapes the library reads
    (a date alone, a time without seconds, three fraction digits, an
    offset) are not part of this reader: on those it answers [None] where
    the library returns a value.  With an offset the library returns an
    aware value, which [datetime] above does not hold and on which the
    subtraction of the sweep raises [TypeError]; ledgers with such entries
    are outside this development. *)
Definition fromisoformat (s : string) : option datetime :=
  '(y, s) ← read_digits 4 s;
  s ← read_char "-" s;
  '(m, s) ← read_digits 2 s;
  s ← read_char "-" s;
  '(d, s) ← read_digits 2 s;
  s ← match s with String _ s' => Some s' | EmptyString => None end;
  '(hh, s) ← read_digits 2 s;
  s ← read_char ":" s;
  '(mm, s) ← read_digits 2 s;
  s ← read_char ":" s;
  '(ss, s) ← read_digits 2 s;
  '(us, s) ← match s with
             | EmptyString => Some (0, EmptyString)
             | _ => s ← read_char "." s; read_digits 6 s
             end;
  match s with
  | EmptyString =>
      let r := mk_datetime y m d hh mm ss us in
      if valid r then Some r else None
  | _ => None
  end.

End Datetime.

(* ===================================================================== *)
(** ** modules/cleanup_scheduler.py *)
(* ===================================================================== *)

Module CleanupScheduler.

Import Datetime.

(** An element of [self.cleanup_schedule]: the dictionary built by
    [schedule_deletion]. *)
Record cleanup_item : Type := mk_cleanup_item {
  file_path : string;
  download_link : string;
  upload_time : datetime;
  filename : string;
  delete_after_days : Z
}.

#[export] Instance cleanup_item_eq_dec : EqDecision cleanup_item.
Proof. solve_decision. Defined.

(** An element of the list kept in [cleanup_schedule.json]: the same
    dictionary with the upload time as text. *)
Record stored_item : Type := mk_stored_item {
  stored_file_path : string;
  stored_download_link : string;
  stored_upload_time : string;
  stored_filename : string;
  stored_delete_after_days : Z
}.

(** The file [cleanup_schedule.json]: absent, present but not readable as
    JSON, or holding a list of items. *)
Inductive db_file : Type :=
| Missing
| Unreadable
| Stored (items : list stored_item).

(** [self.cleanup_schedule] together with the file behind it. *)
Record scheduler : Type := mk_scheduler {
  cleanup_schedule : list cleanup_item;
  cleanup_db : db_file
}.



(** [list.remove(x)]: drops the first element equal to [x]; [None] stands
    for [ValueError]. *)
Fixpoint list_remove {A : Type} `{EqDecision A} (x : A) (l : list A)
  : option (list A) :=
  match l with
  | [] => None
  | y :: l' =>
      if decide (x = y) then Some l'
      else match list_remove x l' with
           | Some r => Some (y :: r)
           | None => None
           end
  end.

(** [for item in items_to_remove: l.remove(item)]. *)
Fixpoint remove_each {A : Type} `{EqDecision A} (items_to_remove l : list A)
  : option (list A) :=
  match items_to_remove with
  | [] => Some l
  | x :: rest =>
      match list_remove x l with
      | Some l' => remove_each rest l'
      | None => None
      end
  end.

(** The copy of an item written by [save_cleanup_schedule]. *)
Definition store_item (item : cleanup_item) : stored_item :=
  {| stored_file_path := file_path item;
     stored_download_link := download_link item;
     stored_upload_time := isoformat (upload_time item);
     stored_filename := filename item;
     stored_delete_after_days := delete_after_days item |}.

(** [save_cleanup_schedule()]: the content written to the file. *)
Definition save_cleanup_schedule (schedule : list cleanup_item) : db_file :=
  Stored (store_item <$> schedule).

(** [(current_time - item['upload_time']).days >= item['delete_after_days']]. *)
Definition is_due (current_time : datetime) (item : cleanup_item) : bool :=
  (delete_after_days item <=? days_between current_time (upload_time item))%Z.

Section Loading.

(** [datetime.fromisoformat]; [None] stands for the exception it raises. *)
Variable parse_iso : string -> option datetime.

(** The assignment [item['upload_time'] = datetime.fromisoformat(...)]. *)
Definition load_item (it : stored_item) : option cleanup_item :=
  match parse_iso (stored_upload_time it) with
  | Some t =>
      Some {| file_path := stored_file_path it;
              download_link := stored_download_link it;
              upload_time := t;
              filename := stored_filename it;
              delete_after_days := stored_delete_after_days it |}
  | None => None
  end.

(** The loop of [load_cleanup_schedule] over the items read: the converted
    items, or [None] when a conversion raises. *)
Fixpoint load_items (items : list stored_item) : option (list cleanup_item) :=
  match items with
  | [] => Some []
  | it :: rest =>
      match load_item it with
      | Some item =>
          match load_items rest with
          | Some l => Some (item :: l)
          | None => None
          end
      | None => None
      end
  end.

(** [load_cleanup_schedule()]: the value given to [self.cleanup_schedule].
    Any exception inside the [try] leaves the empty list. *)
Definition load_cleanup_schedule (db : db_file) : list cleanup_item :=
  match db with
  | Missing => []
  | Unreadable => []
  | Stored items =>
      match load_items items with
      | Some l => l
      | None => []
      end
  end.

(** The loading as the design document words it: an item whose timestamp is
    unparsable is dropped, the others are kept. *)
Definition load_dropping_unparsable (db : db_file) : list cleanup_item :=
  match db with
  | Missing => []
  | Unreadable => []
  | Stored items => omap load_item items
  end.


End Loading.


Section Sweep.

(** The state of the machine and of the cloud store, as far as deletions
    see and change it. *)
Variable World : Type.

(** [os.path.exists(path)]. *)
Variable os_path_exists : World -> string -> bool.

(** [os.remove(path)]: [false] when it raises. *)
Variable os_remove : World -> string -> bool * World.

(** [CloudUploader(self.config).delete_file(filename)]: its boolean, or the
    exception raised on the way. *)
Variable uploader_delete_file : World -> string -> result bool * World.

(** What one call of [delete_file] found: the item, whether the local step
    passed without an exception, whether the cloud reported the deletion. *)
Record attempt : Type := mk_attempt {
  attempted : cleanup_item;
  local_deleted : bool;
  cloud_deleted : bool
}.

Definition succeeded (a : attempt) : bool :=
  local_deleted a && cloud_deleted a.

(** [delete_file(cleanup_item)]; its result is [succeeded] of the attempt. *)
Definition delete_file (w : World) (item : cleanup_item) : attempt * World :=
  let '(local_ok, w1) :=
    if os_path_exists w (file_path item)
    then os_remove w (file_path item)
    else (true, w) in
  let '(r, w2) := uploader_delete_file w1 (filename item) in
  let cloud_ok :=
    match r with
    | Returned b => b
    | Raised _ => false
    end in
  ({| attempted := item; local_deleted := local_ok; cloud_deleted := cloud_ok |},
   w2).

(** The first loop of [check_and_cleanup]: the attempts made, in order. *)
Fixpoint sweep (current_time : datetime) (w : World)
  (schedule : list cleanup_item) : list attempt * World :=
  match schedule with
  | [] => ([], w)
  | item :: rest =>
      if is_due current_time item then
        let '(a, w1) := delete_file w item in
        let '(log, w2) := sweep current_time w1 rest in
        (a :: log, w2)
      else sweep current_time w rest
  end.

(** [items_to_remove] after the first loop. *)
Definition items_to_remove (log : list attempt) : list cleanup_item :=
  attempted <$> filter (fun a => succeeded a = true) log.

(** [check_and_cleanup()] at [current_time], on a ledger of naive
    timestamps: the scheduler afterwards ([None] when a [remove] raises),
    the world afterwards, and the attempts made. *)
Definition check_and_cleanup (current_time : datetime) (w : World)
  (s : scheduler) : option scheduler * World * list attempt :=
  let '(log, w') := sweep current_time w (cleanup_schedule s) in
  match remove_each (items_to_remove log) (cleanup_schedule s) with
  | None => (None, w', log)
  | Some schedule =>
      (Some {| cleanup_schedule := schedule;
               cleanup_db :=
                 match items_to_remove log with
                 | [] => cleanup_db s
                 | _ :: _ => save_cleanup_schedule schedule
                 end |},
       w', log)
  end.

(** The loop of [force_cleanup] over [items_to_cleanup]: every item is
    handed to [delete_file], and removed from the ledger at once when the
    deletion succeeded. *)
Fixpoint force_loop (w : World) (items schedule : list cleanup_item)
  : option (list cleanup_item) * World * list attempt :=
  match items with
  | [] => (Some schedule, w, [])
  | item :: rest =>
      let '(a, w1) := delete_file w item in
      if succeeded a then
        match list_remove item schedule with
        | Some schedule' =>
            let '(r, w2, log) := force_loop w1 rest schedule' in
            (r, w2, a :: log)
        | None => (None, w1, [a])
        end
      else
        let '(r, w2, log) := force_loop w1 rest schedule in
        (r, w2, a :: log)
  end.

(** [force_cleanup(filename)]: the scheduler afterwards with the count
    returned ([None] when a [remove] raises), the world afterwards and the
    attempts made. *)
Definition force_cleanup (name : option string) (w : World) (s : scheduler)
  : option (scheduler * nat) * World * list attempt :=
  let items_to_cleanup :=
    match name with
    | Some n =>
        if str_truthy n
        then filter (fun item => filename item = n) (cleanup_schedule s)
        else cleanup_schedule s
    | None => cleanup_schedule s
    end in
  let '(r, w', log) := force_loop w items_to_cleanup (cleanup_schedule s) in
  let cleaned_count := length (filter (fun a => succeeded a = true) log) in
  match r with
  | None => (None, w', log)
  | Some schedule =>
      (Some ({| cleanup_schedule := schedule;
                cleanup_db :=
                  if (0 <? cleaned_count)%nat
                  then save_cleanup_schedule schedule
                  else cleanup_db s |},
             cleaned_count),
       w', log)
  end.

End Sweep.



(** One line of the report of [get_cleanup_status]. *)
Record item_status : Type := mk_item_status {
  status_filename : string;
  status_upload_time : string;
  days_since_upload : Z;
  days_until_deletion : Z
}.

(** The dictionary returned by [get_cleanup_status]. *)
Record cleanup_status : Type := mk_cleanup_status {
  total_scheduled : nat;
  pending_cleanup : list item_status;
  expired_items : list item_status
}.

Section Status.

(** [t.strftime('%Y-%m-%d %H:%M:%S')]. *)
Variable strftime : datetime -> string.

Definition status_of (current_time : datetime) (item : cleanup_item)
  : item_status :=
  let since := days_between current_time (upload_time item) in
  {| status_filename := filename item;
     status_upload_time := strftime (upload_time item);
     days_since_upload := since;
     days_until_deletion := (delete_after_days item - since)%Z |}.

(** The loop of [get_cleanup_status]: the pending and the expired lines. *)
Fixpoint status_lines (current_time : datetime) (schedule : list cleanup_item)
  : list item_status * list item_status :=
  match schedule with
  | [] => ([], [])
  | item :: rest =>
      let '(pending, expired) := status_lines current_time rest in
      let line := status_of current_time item in
      if (days_until_deletion line <=? 0)%Z
      then (pending, line :: expired)
      else (line :: pending, expired)
  end.

(** [get_cleanup_status()] at [current_time]. *)
Definition get_cleanup_status (current_time : datetime) (s : scheduler)
  : cleanup_status :=
  let '(pending, expired) := status_lines current_time (cleanup_schedule s) in
  {| total_scheduled := length (cleanup_schedule s);
     pending_cleanup := pending;
     expired_items := expired |}.

End Status.

End CleanupScheduler.

(* ===================================================================== *)
(** ** Sample devices, jobs and ledgers *)
(* ===================================================================== *)

Module Examples.

Import Datetime CleanupScheduler.

(** An inserted stick, as [_get_device_info] reports it. *)
Definition stick : USBMonitor.device_info :=
  {| USBMonitor.device := "/dev/sdb1";
     USBMonitor.size := "8G";
     USBMonitor.label := "STICK";
     USBMonitor.mount_point := Some "/media/usb0";
     USBMonitor.transport := "usb" |}.

(** A system in which the stick is attached and mounted. *)
Definition stick_mounted : USBMonitor.system :=
  {| USBMonitor.usb_storage_devices := [stick];
     USBMonitor.is_usb_storage_device := fun _ => true;
     USBMonitor.lsblk_row := fun _ => Some ["8G"; "STICK"; "/media/usb0"];
     USBMonitor.is_device_mounted := fun _ => true |}.

(** A system in which the stick is attached and not mounted. *)
Definition stick_unmounted : USBMonitor.system :=
  {| USBMonitor.usb_storage_devices := [stick];
     USBMonitor.is_usb_storage_device := fun _ => true;
     USBMonitor.lsblk_row := fun _ => Some ["8G"; "STICK"; "/media/usb0"];
     USBMonitor.is_device_mounted := fun _ => false |}.

(** A system without any stick. *)
Definition no_stick : USBMonitor.system :=
  {| USBMonitor.usb_storage_devices := [];
     USBMonitor.is_usb_storage_device := fun _ => false;
     USBMonitor.lsblk_row := fun _ => None;
     USBMonitor.is_device_mounted := fun _ => false |}.

Definition add_stick : USBMonitor.udev_event :=
  {| USBMonitor.udev_action := "add";
     USBMonitor.device_node := Some "/dev/sdb1" |}.

Definition remove_stick : USBMonitor.udev_event :=
  {| USBMonitor.udev_action := "remove";
     USBMonitor.device_node := Some "/dev/sdb1" |}.

Definition clean_scan : Daemon.scan_result :=
  {| Daemon.infected_files := [];
     Daemon.safe_files := ["/media/usb0/a.txt"; "/media/usb0/b.txt"] |}.

Definition infected_scan : Daemon.scan_result :=
  {| Daemon.infected_files :=
       [{| Daemon.file := "/media/usb0/c.exe";
           Daemon.threat := "Eicar-Test-Signature" |}];
     Daemon.safe_files := ["/media/usb0/a.txt"; "/media/usb0/b.txt"] |}.

(** Collaborators that all succeed, around the given scan result. *)
Definition collaborators_with (scan : Daemon.scan_result)
  : Daemon.collaborators :=
  {| Daemon.os_path_exists := fun _ => true;
     Daemon.scan_directory := fun _ => Returned scan;
     Daemon.create_zip := fun _ => Returned (Some "/tmp/usb_transfer.zip");
     Daemon.upload_file := fun _ =>
       Returned (Daemon.UploadSucceeded "/uploads/usb_transfer.zip"
                   "usb_transfer.zip" "https://cloud/uploads/usb_transfer.zip");
     Daemon.create_public_share := fun _ => Returned (Some "https://cloud/s/abc");
     Daemon.get_email_address := Some "user@example.org";
     Daemon.send_notification := fun _ _ _ => Returned true |}.

Definition clean_run : Daemon.collaborators := collaborators_with clean_scan.

Definition infected_run : Daemon.collaborators :=
  collaborators_with infected_scan.

(** Collaborators whose operator closes the dialog without an address. *)
Definition no_address_run : Daemon.collaborators :=
  {| Daemon.os_path_exists := fun _ => true;
     Daemon.scan_directory := fun _ => Returned clean_scan;
     Daemon.create_zip := fun _ => Returned (Some "/tmp/usb_transfer.zip");
     Daemon.upload_file := fun _ =>
       Returned (Daemon.UploadSucceeded "/uploads/usb_transfer.zip"
                   "usb_transfer.zip" "https://cloud/uploads/usb_transfer.zip");
     Daemon.create_public_share := fun _ => Returned (Some "https://cloud/s/abc");
     Daemon.get_email_address := None;
     Daemon.send_notification := fun _ _ _ => Returned true |}.

(** Collaborators whose scanner raises. *)
Definition scanner_down_run : Daemon.collaborators :=
  {| Daemon.os_path_exists := fun _ => true;
     Daemon.scan_directory := fun _ => Raised "clamd is not running";
     Daemon.create_zip := fun _ => Returned (Some "/tmp/usb_transfer.zip");
     Daemon.upload_file := fun _ =>
       Returned (Daemon.UploadSucceeded "/uploads/usb_transfer.zip"
                   "usb_transfer.zip" "https://cloud/uploads/usb_transfer.zip");
     Daemon.create_public_share := fun _ => Returned (Some "https://cloud/s/abc");
     Daemon.get_email_address := Some "user@example.org";
     Daemon.send_notification := fun _ _ _ => Returned true |}.

(** A snapshot without a mount point. *)
Definition unmounted_stick : USBMonitor.device_info :=
  {| USBMonitor.device := "/dev/sdb1";
     USBMonitor.size := "8G";
     USBMonitor.label := "STICK";
     USBMonitor.mount_point := None;
     USBMonitor.transport := "usb" |}.

Definition uploaded_at : datetime := mk_datetime 2024 2 29 13 5 9 250000.

Definition a_week_later : datetime := mk_datetime 2024 3 7 13 5 9 250000.

Definition artifact : cleanup_item :=
  {| file_path := "/uploads/usb_transfer.zip";
     download_link := "https://cloud/s/abc";
     upload_time := uploaded_at;
     filename := "usb_transfer.zip";
     delete_after_days := 7 |}.

Definition other_artifact : cleanup_item :=
  {| file_path := "/uploads/photos.zip";
     download_link := "https://cloud/s/def";
     upload_time := uploaded_at;
     filename := "photos.zip";
     delete_after_days := 30 |}.

(** A stored entry with a well-formed timestamp and one with a corrupt
    timestamp. *)
Definition good_stored : stored_item := store_item artifact.

Definition bad_stored : stored_item :=
  {| stored_file_path := "/uploads/photos.zip";
     stored_download_link := "https://cloud/s/def";
     stored_upload_time := "yesterday";
     stored_filename := "photos.zip";
     stored_delete_after_days := 30 |}.

(** A small world: the local files and the files of the cloud store. *)
Record disk : Type := mk_disk {
  local_files : gset string;
  remote_files : gset string
}.

Definition disk_exists (w : disk) (path : string) : bool :=
  bool_decide (path ∈ local_files w).

Definition disk_remove (w : disk) (path : string) : bool * disk :=
  (true, {| local_files := local_files w ∖ {[path]};
            remote_files := remote_files w |}).

(** The cloud deletes a file it holds and answers [False] otherwise. *)
Definition disk_cloud_delete (w : disk) (name : string)
  : result bool * disk :=
  if bool_decide (name ∈ remote_files w)
  then (Returned true, {| local_files := local_files w;
                          remote_files := remote_files w ∖ {[name]} |})
  else (Returned false, w).


(** A cloud that confirms every deletion. *)
Definition disk_cloud_confirms (w : disk) (name : string)
  : result bool * disk := (Returned true, w).

Definition empty_disk : disk := {| local_files := ∅; remote_files := ∅ |}.

Definition ledger_of (schedule : list cleanup_item) : scheduler :=
  {| cleanup_schedule := schedule;
     cleanup_db := save_cleanup_schedule schedule |}.

End Examples.
(* ===================================================================== *)
(** ** The error ring of the status record *)
(* ===================================================================== *)

Section SliceLast.
Context {A : Type}.
Implicit Types l : list A.

Lemma slice_last_short n l : (length l <= n)%nat -> slice_last n l = l.
Proof.
  intros H. unfold slice_last.
  replace (length l - n)%nat with 0%nat by lia. reflexivity.
Qed.

Lemma slice_last_length n l : length (slice_last n l) = Nat.min n (length l).
Proof. unfold slice_last. rewrite length_drop. lia. Qed.

Lemma slice_last_snoc n l x :
  (1 <= n)%nat -> slice_last n (slice_last n l ++ [x]) = slice_last n (l ++ [x]).
Proof.
  intros Hn. destruct (decide (length l <= n)%nat) as [Hle|Hgt].
  - rewrite (slice_last_short n l) by exact Hle. reflexivity.
  - unfold slice_last at 1 3.
    rewrite !length_app, slice_last_length. simpl.
    replace (Nat.min n (length l) + 1 - n)%nat with 1%nat by lia.
    unfold slice_last.
    rewrite (drop_app_le l [x]) by lia.
    rewrite (drop_app_le (drop _ l) [x]) by (rewrite length_drop; lia).
    rewrite drop_drop. f_equal. f_equal. lia.
Qed.
End SliceLast.

Section StatusFacts.
Import StatusManager.


Lemma add_error_errors st now m :
  errors (add_error st now m)
  = slice_last 10 (errors st ++ [{| timestamp := now; err_message := m |}]).
Proof.
  unfold add_error. simpl.
  destruct (10 <? _)%nat eqn:E; [reflexivity|].
  apply Nat.ltb_ge in E. symmetry. apply slice_last_short. exact E.
Qed.

Lemma step_errors st o :
  (length (errors st) <= 10)%nat ->
  errors (step st o) = slice_last 10 (errors st ++ added_errors [o]).
Proof.
  intros H. destruct o.
  - simpl. rewrite app_nil_r, slice_last_short; auto.
  - apply add_error_errors.
  - simpl. rewrite app_nil_r, slice_last_short; auto.
  - simpl. rewrite app_nil_r, slice_last_short; auto.
Qed.

Lemma added_errors_app ops1 ops2 :
  added_errors (ops1 ++ ops2) = added_errors ops1 ++ added_errors ops2.
Proof.
  induction ops1 as [|o ops1 IH]; [reflexivity|].
  destruct o; simpl; rewrite IH; reflexivity.
Qed.

Lemma run_snoc ops o : run (ops ++ [o]) = step (run ops) o.
Proof. unfold run. rewrite fold_left_app. reflexivity. Qed.

Lemma run_errors ops :
  errors (run ops) = slice_last 10 (added_errors ops).
Proof.
  induction ops as [|o ops IH] using rev_ind; [reflexivity|].
  rewrite run_snoc, step_errors.
  - rewrite IH, added_errors_app.
    destruct o; simpl; rewrite ?app_nil_r.
    + apply slice_last_short. rewrite slice_last_length. lia.
    + apply slice_last_snoc. lia.
    + apply slice_last_short. rewrite slice_last_length. lia.
    + apply slice_last_short. rewrite slice_last_length. lia.
  - rewrite IH, slice_last_length. lia.
Qed.

(** C8.  After any sequence of operations on a fresh status record the
    error list holds at most ten records and equals the last ten error
    records added, oldest first; one more [add_error] leaves the last ten of
    the records added so far, and every other operation leaves the list as
    it is. *)
Theorem errors_hold_last_ten (ops : list op) :
  (length (errors (run ops)) <= 10)%nat /\
  errors (run ops) = slice_last 10 (added_errors ops) /\
  (forall o,
     errors (run (ops ++ [o]))
     = match o with
       | AddError now m =>
           slice_last 10 (added_errors ops
                          ++ [{| timestamp := now; err_message := m |}])
       | _ => errors (run ops)
       end).
Proof.
  split; [|split].
  - rewrite run_errors, slice_last_length. lia.
  - apply run_errors.
  - intros o. destruct o; try (rewrite run_snoc; reflexivity).
    rewrite run_errors, added_errors_app. reflexivity.
Qed.

End StatusFacts.
(* ===================================================================== *)
(** ** The device monitor *)
(* ===================================================================== *)

Section MonitorFacts.
Import USBMonitor Examples.

Lemma and_then_fst (a b : action) st :
  fst (and_then a b st) = fst (b (fst (a st))).
Proof.
  unfold and_then. destruct (a st) as [st1 t1]. simpl.
  destruct (b st1); reflexivity.
Qed.

Lemma and_then_snd (a b : action) st :
  snd (and_then a b st) = snd (a st) ++ snd (b (fst (a st))).
Proof.
  unfold and_then. destruct (a st) as [st1 t1]. simpl.
  destruct (b st1); reflexivity.
Qed.

(** A property of the state kept by every round of a loop is kept by the
    loop. *)
Lemma for_each_state {A : Type} (P : monitor -> Prop) (body : A -> action) l :
  (forall x st, x ∈ l -> P st -> P (fst (body x st))) ->
  forall st, P st -> P (fst (for_each body l st)).
Proof.
  induction l as [|x l IH]; intros Hbody st Hst; [exact Hst|].
  simpl. rewrite and_then_fst. apply IH.
  - intros y st' Hy. apply Hbody. now constructor.
  - apply Hbody; [constructor | exact Hst].
Qed.

(** A property of the callbacks fired by every round of a loop holds for all
    the callbacks of the loop. *)
Lemma for_each_trace {A : Type} (Q : callback -> Prop) (body : A -> action) l :
  (forall x st, x ∈ l -> Forall Q (snd (body x st))) ->
  forall st, Forall Q (snd (for_each body l st)).
Proof.
  induction l as [|x l IH]; intros Hbody st; [constructor|].
  simpl. rewrite and_then_snd. apply Forall_app. split.
  - apply Hbody. constructor.
  - apply IH. intros y st' Hy. apply Hbody. now constructor.
Qed.

Lemma find_device_Some devices p info :
  find_device devices p = Some info -> device info = p /\ info ∈ devices.
Proof.
  unfold find_device. intros H. apply find_some in H as [Hin Hb].
  apply bool_decide_eq_true in Hb. split; [exact Hb|].
  apply list_elem_of_In. exact Hin.
Qed.

Lemma device_inserted_snd sys info st :
  snd (device_inserted sys info st)
  = if is_device_mounted sys (device info) then [OnInsert info] else [].
Proof. unfold device_inserted. destruct (is_device_mounted _ _); reflexivity. Qed.

Lemma device_inserted_fst sys info st :
  fst (device_inserted sys info st)
  = {| known_devices := {[device info]} ∪ known_devices st;
       device_info_cache := <[device info := info]> (device_info_cache st) |}.
Proof. unfold device_inserted. destruct (is_device_mounted _ _); reflexivity. Qed.

Lemma insert_callbacks_app p t1 t2 :
  insert_callbacks p (t1 ++ t2) = insert_callbacks p t1 ++ insert_callbacks p t2.
Proof. unfold insert_callbacks. apply omap_app. Qed.

Lemma insert_callbacks_nil p t :
  Forall (not_insert_of p) t -> insert_callbacks p t = [].
Proof.
  induction 1 as [|c t Hc _ IH]; [reflexivity|].
  unfold insert_callbacks in *. simpl. destruct c as [d|d]; simpl in *.
  - rewrite bool_decide_eq_false_2 by exact Hc. exact IH.
  - exact IH.
Qed.

Lemma poll_inserted_trace sys p l st :
  p ∉ l -> Forall (not_insert_of p) (snd (poll_inserted sys l st)).
Proof.
  intros Hp. unfold poll_inserted. apply for_each_trace.
  intros q st' Hq.
  destruct (find_device _ q) as [info|] eqn:E; [|constructor].
  apply find_device_Some in E as [Hd _].
  rewrite device_inserted_snd.
  destruct (is_device_mounted _ _); constructor; [|constructor].
  simpl. rewrite Hd. intros ->. contradiction.
Qed.

Lemma poll_removed_one_trace p q st :
  Forall (not_insert_of p) (snd (poll_removed_one q st)).
Proof.
  unfold poll_removed_one. destruct (_ !! q); [|constructor].
  rewrite and_then_snd. simpl. repeat constructor.
Qed.

Lemma poll_removed_trace p l st :
  Forall (not_insert_of p) (snd (poll_removed l st)).
Proof.
  unfold poll_removed. apply for_each_trace. intros. apply poll_removed_one_trace.
Qed.

Lemma poll_cycle_snd sys st :
  snd (poll_cycle sys st)
  = let cur := device_paths (usb_storage_devices sys) in
    let r1 := poll_inserted sys (elements (cur ∖ known_devices st)) st in
    snd r1 ++ snd (poll_removed (elements (known_devices (fst r1) ∖ cur)) (fst r1)).
Proof.
  unfold poll_cycle. simpl.
  destruct (poll_inserted _ _ _) as [st1 t1]. simpl.
  destruct (poll_removed _ _) as [st2 t2]. simpl.
  rewrite app_nil_r. reflexivity.
Qed.

Lemma poll_cycle_fst sys st :
  fst (poll_cycle sys st)
  = let cur := device_paths (usb_storage_devices sys) in
    let r1 := poll_inserted sys (elements (cur ∖ known_devices st)) st in
    let r2 := poll_removed (elements (known_devices (fst r1) ∖ cur)) (fst r1) in
    fst (poll_reconcile sys (fst r2)).
Proof.
  unfold poll_cycle. simpl.
  destruct (poll_inserted _ _ _) as [st1 t1]. simpl.
  destruct (poll_removed _ _) as [st2 t2]. reflexivity.
Qed.

(** X3.  Under the polling strategy a cycle fires no insert callback for a
    path that is in the known set when the cycle starts. *)
Lemma polling_known_path_not_refired sys st p :
  p ∈ known_devices st ->
  insert_callbacks p (snd (poll_cycle sys st)) = [].
Proof.
  intros Hp. rewrite poll_cycle_snd. simpl.
  rewrite insert_callbacks_app.
  rewrite (insert_callbacks_nil p (snd (poll_inserted _ _ _))).
  - rewrite insert_callbacks_nil; [reflexivity|]. apply poll_removed_trace.
  - apply poll_inserted_trace. rewrite elem_of_elements, elem_of_difference.
    intros [_ Hn]. contradiction.
Qed.

(** C2, on the event-subscription strategy.  After a first [add]
    notification the stick is in the known set and its insert callback has
    fired; a second [add] notification for the same path fires the insert
    callback again: nothing in [_handle_device_add] or [_device_inserted]
    looks at the known set. *)
Lemma event_add_for_known_verified_path_refires :
  let first := monitor_with_pyudev [(stick_mounted, add_stick)] init in
  ("/dev/sdb1" ∈ known_devices (fst first)) /\
  snd first = [OnInsert stick] /\
  snd (handle_event stick_mounted add_stick (fst first)) = [OnInsert stick] /\
  insert_callbacks "/dev/sdb1"
    (snd (monitor_with_pyudev
            [(stick_mounted, add_stick); (stick_mounted, add_stick)] init))
  = [stick; stick].
Proof.
  split; [|split; [|split]].
  - apply (bool_decide_eq_true_1 _ (Decision0 := _)). vm_compute. reflexivity.
  - reflexivity.
  - reflexivity.
  - reflexivity.
Qed.

(** C3.  A candidate insert whose device is not mounted after the grace
    period fires no callback; its path is in the known set and its snapshot
    in the cache afterwards, and a later removal notification for the path
    fires the removal callback with that snapshot and clears both. *)
Theorem unverified_insert_stays_tracked sys info st :
  is_device_mounted sys (device info) = false ->
  let st' := fst (device_inserted sys info st) in
  snd (device_inserted sys info st) = [] /\
  (device info ∈ known_devices st') /\
  device_info_cache st' !! device info = Some info /\
  (str_truthy (device info) = true ->
   let r := handle_device_remove (Some (device info)) st' in
   snd r = [OnRemove info] /\
   (device info ∉ known_devices (fst r)) /\
   device_info_cache (fst r) !! device info = None).
Proof.
  intros Hm. rewrite device_inserted_snd, device_inserted_fst, Hm. simpl.
  split; [reflexivity|].
  split; [apply elem_of_union_l, elem_of_singleton; reflexivity|].
  split; [apply lookup_insert_eq|].
  intros Ht. rewrite Ht. simpl. rewrite lookup_insert_eq.
  unfold and_then. simpl.
  split; [reflexivity|].
  split; [|apply lookup_delete_eq].
  rewrite elem_of_difference. intros [_ Hn]. apply Hn, elem_of_singleton.
  reflexivity.
Qed.

Lemma poll_removed_one_cache q st :
  device_info_cache (fst (poll_removed_one q st))
  = delete q (device_info_cache st).
Proof.
  unfold poll_removed_one. destruct (_ !! q) eqn:E.
  - rewrite and_then_fst. reflexivity.
  - simpl. symmetry. apply delete_id. exact E.
Qed.

Lemma poll_removed_keeps_uncached p l st :
  device_info_cache st !! p = None ->
  device_info_cache (fst (poll_removed l st)) !! p = None.
Proof.
  intros H. unfold poll_removed.
  apply (for_each_state (fun s => device_info_cache s !! p = None)); [|exact H].
  intros q s _ Hs. rewrite poll_removed_one_cache.
  rewrite lookup_delete_None. right. exact Hs.
Qed.

Lemma poll_removed_clears p l st :
  p ∈ l -> device_info_cache (fst (poll_removed l st)) !! p = None.
Proof.
  revert st. induction l as [|q l IH]; intros st Hp.
  - inversion Hp.
  - unfold poll_removed. simpl. rewrite and_then_fst.
    apply elem_of_cons in Hp as [->|Hp].
    + apply poll_removed_keeps_uncached. rewrite poll_removed_one_cache.
      apply lookup_delete_eq.
    + apply IH. exact Hp.
Qed.

Lemma poll_inserted_cache sys p l st :
  p ∉ l ->
  device_info_cache (fst (poll_inserted sys l st)) !! p
  = device_info_cache st !! p.
Proof.
  intros Hp. unfold poll_inserted.
  apply (for_each_state
           (fun s => device_info_cache s !! p = device_info_cache st !! p));
    [|reflexivity].
  intros q s Hq Hs.
  destruct (find_device _ q) as [info|] eqn:E; [|exact Hs].
  apply find_device_Some in E as [Hd _].
  rewrite device_inserted_fst. simpl. rewrite lookup_insert_ne; [exact Hs|].
  rewrite Hd. intros ->. contradiction.
Qed.

Lemma poll_inserted_known sys p l st :
  p ∈ known_devices st -> p ∈ known_devices (fst (poll_inserted sys l st)).
Proof.
  intros Hp. unfold poll_inserted.
  apply (for_each_state (fun s => p ∈ known_devices s)); [|exact Hp].
  intros q s _ Hs. destruct (find_device _ q); [|exact Hs].
  rewrite device_inserted_fst. simpl. apply elem_of_union_r. exact Hs.
Qed.

Lemma refresh_cache_lookup devices (cache : gmap string device_info) p :
  p ∉ device_paths devices ->
  fold_left (fun c dev => <[device dev := dev]> c) devices cache !! p
  = cache !! p.
Proof.
  revert cache. induction devices as [|d ds IH]; intros cache Hp; [reflexivity|].
  simpl. unfold device_paths in *. simpl in Hp.
  rewrite IH.
  - apply lookup_insert_ne. intros E. apply Hp. rewrite E.
    apply elem_of_union_l, elem_of_singleton. reflexivity.
  - intros H. apply Hp. apply elem_of_union_r. exact H.
Qed.

(** A polling cycle that does not list [p] ends with [p] outside the known
    set, and outside the cache when [p] was known or not cached before. *)
Lemma poll_cycle_forgets sys st p :
  p ∉ device_paths (usb_storage_devices sys) ->
  known_devices (fst (poll_cycle sys st)) = device_paths (usb_storage_devices sys)
  /\ (p ∈ known_devices st \/ device_info_cache st !! p = None ->
      device_info_cache (fst (poll_cycle sys st)) !! p = None).
Proof.
  intros Hp. rewrite poll_cycle_fst. simpl. split; [reflexivity|].
  intros H. rewrite refresh_cache_lookup by exact Hp.
  assert (Hnew : p ∉ elements (device_paths (usb_storage_devices sys)
                               ∖ known_devices st)).
  { rewrite elem_of_elements, elem_of_difference. intros [Hc _]. contradiction. }
  destruct H as [Hk|Hc].
  - apply poll_removed_clears. rewrite elem_of_elements, elem_of_difference.
    split; [|exact Hp]. apply poll_inserted_known. exact Hk.
  - apply poll_removed_keeps_uncached.
    rewrite poll_inserted_cache by exact Hnew. exact Hc.
Qed.

Lemma unverified_insert_stays_tracked_witness :
  snd (device_inserted stick_unmounted stick init) = [].
Proof.
  apply (unverified_insert_stays_tracked stick_unmounted stick init).
  reflexivity.
Defined.

End MonitorFacts.
(* ===================================================================== *)
(** ** The per-device pipeline *)
(* ===================================================================== *)

Section PipelineFacts.
Import Daemon Examples.

Ltac not_in_trace H :=
  repeat (apply elem_of_cons in H as [H|H]; [discriminate H|]);
  apply elem_of_nil in H; contradiction.

Ltac run_pipeline :=
  unfold process_usb_drive, process_usb_drive_body;
  cbn [mbind proc_bind bind emit call return_ pass app negb orb andb
       opt_truthy default].

Lemma schedule_deletion_implies_success c dev path link :
  ScheduleDeletion path link ∈ process_usb_drive c dev ->
  all_stages_succeed c dev path link.
Proof.
  unfold process_usb_drive, process_usb_drive_body.
  destruct (USBMonitor.mount_point dev) as [mount|] eqn:Emount;
    [|intros H; not_in_trace H].
  destruct (str_truthy mount) eqn:Etm; simpl; [|intros H; not_in_trace H].
  destruct (os_path_exists c mount) eqn:Eex; simpl; [|intros H; not_in_trace H].
  destruct (scan_directory c mount) as [scan|e] eqn:Escan; simpl;
    [|intros H; not_in_trace H].
  destruct (infected_files scan) as [|i is_] eqn:Einf; simpl;
    [|intros H; not_in_trace H].
  destruct (safe_files scan) as [|f fs] eqn:Esafe; simpl;
    [intros H; not_in_trace H|].
  destruct (create_zip c (f :: fs)) as [[zip|]|e] eqn:Ezip; simpl;
    [|intros H; not_in_trace H|intros H; not_in_trace H].
  destruct (str_truthy zip) eqn:Etz; simpl; [|intros H; not_in_trace H].
  destruct (upload_file c zip) as [[remote rf url|err]|e] eqn:Eup; simpl;
    [|intros H; not_in_trace H|intros H; not_in_trace H].
  destruct (create_public_share c remote) as [[share|]|e] eqn:Eshare; simpl;
    [|intros H; not_in_trace H|intros H; not_in_trace H].
  destruct (str_truthy share) eqn:Ets; simpl; [|intros H; not_in_trace H].
  destruct (get_email_address c) as [email|] eqn:Eemail; simpl;
    [|intros H; not_in_trace H].
  destruct (str_truthy email) eqn:Ete; simpl; [|intros H; not_in_trace H].
  destruct (send_notification c email share zip) as [[|]|e] eqn:Esend; simpl;
    [|intros H; not_in_trace H|intros H; not_in_trace H].
  intros H.
  repeat (apply elem_of_cons in H as [H|H]; [try discriminate H|]);
    [|apply elem_of_nil in H; contradiction].
  injection H as -> ->.
  exists mount, scan, zip, rf, url, email.
  rewrite Esafe. repeat split; try assumption; try discriminate.
Qed.

(** The calls of a job in which every stage succeeds. *)
Lemma success_trace c dev mount scan zip path remote_filename url link email :
  USBMonitor.mount_point dev = Some mount ->
  str_truthy mount = true ->
  os_path_exists c mount = true ->
  scan_directory c mount = Returned scan ->
  infected_files scan = [] ->
  safe_files scan <> [] ->
  create_zip c (safe_files scan) = Returned (Some zip) ->
  str_truthy zip = true ->
  upload_file c zip = Returned (UploadSucceeded path remote_filename url) ->
  create_public_share c path = Returned (Some link) ->
  str_truthy link = true ->
  get_email_address c = Some email ->
  str_truthy email = true ->
  send_notification c email link zip = Returned true ->
  process_usb_drive c dev =
    [ SetStatus ("Scanning files in " +:+ mount) "scanning";
      ScanDirectory mount;
      SetStatus ("Creating archive from " +:+ pretty (length (safe_files scan))
                 +:+ " files") "processing";
      CreateZip (safe_files scan);
      SetStatus "Uploading to Nextcloud" "uploading";
      UploadFile zip;
      SetStatus "Generating public share link" "processing";
      CreatePublicShare path;
      GetEmailAddress;
      SetStatus "Sending email notification" "processing";
      SendNotification email link zip;
      SetStatus ("Email sent to " +:+ email) "success";
      ScheduleDeletion path link ].
Proof.
  intros Emount Etm Eex Escan Einf Esafe Ezip Etz Eup Eshare Ets Eemail Ete Esend.
  unfold process_usb_drive, process_usb_drive_body.
  rewrite Emount, Etm, Eex. simpl. rewrite Escan. simpl. rewrite Einf.
  destruct (safe_files scan) as [|f fs] eqn:E; [contradiction|].
  simpl. rewrite Ezip. simpl. rewrite Etz. simpl. rewrite Eup. simpl.
  rewrite Eshare. simpl. rewrite Ets. simpl. rewrite Eemail. simpl.
  rewrite Ete. simpl. rewrite Esend. reflexivity.
Qed.

(** The calls of a job whose scan reports an infection. *)
Lemma infection_trace c dev mount scan :
  USBMonitor.mount_point dev = Some mount ->
  str_truthy mount = true ->
  os_path_exists c mount = true ->
  scan_directory c mount = Returned scan ->
  infected_files scan <> [] ->
  process_usb_drive c dev =
    [ SetStatus ("Scanning files in " +:+ mount) "scanning";
      ScanDirectory mount;
      SetStatus ("Malware detected! " +:+ pretty (length (infected_files scan))
                 +:+ " infected files") "error";
      ShowMalwareWarning (infected_files scan) ].
Proof.
  intros Emount Etm Eex Escan Einf.
  unfold process_usb_drive, process_usb_drive_body.
  rewrite Emount, Etm, Eex. simpl. rewrite Escan. simpl.
  destruct (infected_files scan) as [|i l] eqn:E; [contradiction|].
  reflexivity.
Qed.

Lemma at_most_one_schedule_deletion c dev :
  (length (filter (fun e => is_schedule_deletion e = true)
                  (process_usb_drive c dev)) <= 1)%nat.
Proof.
  unfold process_usb_drive, process_usb_drive_body.
  destruct (USBMonitor.mount_point dev) as [mount|]; [|simpl; lia].
  destruct (str_truthy mount); simpl; [|lia].
  destruct (os_path_exists c mount); simpl; [|lia].
  destruct (scan_directory c mount) as [scan|e]; simpl; [|lia].
  destruct (infected_files scan); simpl; [|lia].
  destruct (safe_files scan) as [|f fs]; simpl; [lia|].
  destruct (create_zip c (f :: fs)) as [[zip|]|e]; simpl; [|lia|lia].
  destruct (str_truthy zip); simpl; [|lia].
  destruct (upload_file c zip) as [[remote rf url|err]|e]; simpl; [|lia|lia].
  destruct (create_public_share c remote) as [[share|]|e]; simpl; [|lia|lia].
  destruct (str_truthy share); simpl; [|lia].
  destruct (get_email_address c) as [email|]; simpl; [|lia].
  destruct (str_truthy email); simpl; [|lia].
  destruct (send_notification c email share zip) as [[|]|e]; simpl; lia.
Qed.

(** C1.  A job registers its artifact with the cleanup scheduler exactly
    when the mount point is usable, the scan reports no infected file and at
    least one safe file, and archive, upload, share link, address and
    notification all succeed; it does so at most once.  When the scan
    reports an infected file the job makes no archive, no upload, no share
    link and no ledger entry, and its last status is the malware error. *)
Theorem pipeline_short_circuits c dev :
  (forall path link,
     ScheduleDeletion path link ∈ process_usb_drive c dev <->
     all_stages_succeed c dev path link) /\
  (length (filter (fun e => is_schedule_deletion e = true)
                  (process_usb_drive c dev)) <= 1)%nat /\
  (forall scan,
     scan_reports_infection c dev scan ->
     Forall (fun e => is_artifact_event e = false) (process_usb_drive c dev) /\
     last_status (process_usb_drive c dev)
     = Some ("Malware detected! " +:+ pretty (length (infected_files scan))
             +:+ " infected files", "error")).
Proof.
  split; [|split].
  - intros path link. split.
    + apply schedule_deletion_implies_success.
    + intros (mount & scan & zip & rf & url & email & H).
      destruct H as (H1 & H2 & H3 & H4 & H5 & H6 & H7 & H8 & H9 & H10 & H11
                     & H12 & H13 & H14).
      rewrite (success_trace c dev mount scan zip path rf url link email)
        by assumption.
      rewrite !elem_of_cons. do 12 right. left. reflexivity.
  - apply at_most_one_schedule_deletion.
  - intros scan (mount & H1 & H2 & H3 & H4 & H5).
    rewrite (infection_trace c dev mount scan) by assumption.
    split; [repeat constructor | reflexivity].
Qed.

Lemma pipeline_short_circuits_witness :
  Forall (fun e => is_artifact_event e = false)
         (process_usb_drive infected_run stick) /\
  ScheduleDeletion "/uploads/usb_transfer.zip" "https://cloud/s/abc"
    ∈ process_usb_drive clean_run stick.
Proof.
  split.
  - apply (proj2 (proj2 (pipeline_short_circuits infected_run stick))
             infected_scan).
    exists "/media/usb0". repeat split; try reflexivity. discriminate.
  - apply (proj1 (pipeline_short_circuits clean_run stick)).
    exists "/media/usb0", clean_scan, "/tmp/usb_transfer.zip",
      "usb_transfer.zip", "https://cloud/uploads/usb_transfer.zip",
      "user@example.org".
    repeat split; try reflexivity. discriminate.
Defined.

End PipelineFacts.
(* ===================================================================== *)
(** ** Timestamps *)
(* ===================================================================== *)

Import Datetime CleanupScheduler.

Section DatetimeFacts.
Local Open Scope Z_scope.

Lemma digit_value_digit_char d :
  0 <= d < 10 -> digit_value (digit_char d) = Some d.
Proof.
  intros H.
  assert (E : d = 0 \/ d = 1 \/ d = 2 \/ d = 3 \/ d = 4 \/ d = 5 \/ d = 6
              \/ d = 7 \/ d = 8 \/ d = 9) by lia.
  repeat (destruct E as [->|E]; [reflexivity|]). subst d. reflexivity.
Qed.

Lemma read_digits_zero_padded w n rest :
  0 <= n < 10 ^ Z.of_nat w ->
  read_digits w (zero_padded w n rest) = Some (n, rest).
Proof.
  revert n rest. induction w as [|w IH]; intros n rest Hn.
  - change (10 ^ Z.of_nat 0) with 1 in Hn.
    cbn [read_digits zero_padded]. f_equal. f_equal. lia.
  - rewrite Nat2Z.inj_succ, Z.pow_succ_r in Hn by lia.
    cbn [read_digits zero_padded]. rewrite IH.
    + rewrite digit_value_digit_char by (apply Z.mod_pos_bound; lia).
      f_equal. f_equal. rewrite (Z.div_mod n 10) at 3 by lia. lia.
    + split; [apply Z.div_pos; lia|].
      apply Z.div_lt_upper_bound; lia.
Qed.

Lemma read_two_digits n rest :
  0 <= n < 100 -> read_digits 2 (zero_padded 2 n rest) = Some (n, rest).
Proof.
  intros H. apply read_digits_zero_padded.
  change (10 ^ Z.of_nat 2) with 100. exact H.
Qed.

Lemma read_four_digits n rest :
  0 <= n < 10000 -> read_digits 4 (zero_padded 4 n rest) = Some (n, rest).
Proof.
  intros H. apply read_digits_zero_padded.
  change (10 ^ Z.of_nat 4) with 10000. exact H.
Qed.

Lemma read_six_digits n rest :
  0 <= n < 1000000 -> read_digits 6 (zero_padded 6 n rest) = Some (n, rest).
Proof.
  intros H. apply read_digits_zero_padded.
  change (10 ^ Z.of_nat 6) with 1000000. exact H.
Qed.

Lemma days_in_month_le y m : days_in_month y m <= 31.
Proof.
  unfold days_in_month.
  destruct (m =? 2); [destruct (is_leap y); lia|].
  destruct (_ || _); lia.
Qed.

Ltac read_on :=
  cbn [mbind option_bind read_char Ascii.eqb Bool.eqb].

Lemma fromisoformat_isoformat d :
  valid d = true -> fromisoformat (isoformat d) = Some d.
Proof.
  intros Hv. pose proof Hv as Hb. unfold valid in Hb.
  rewrite !andb_true_iff, !Z.leb_le, !Z.ltb_lt in Hb.
  destruct Hb as [[[[[[[[[[[[[Hy1 Hy2] Hm1] Hm2] Hd1] Hd2] Hh1] Hh2] Hi1] Hi2]
                        Hs1] Hs2] Hu1] Hu2].
  pose proof (days_in_month_le (year d) (month d)) as Hdm.
  unfold fromisoformat, isoformat.
  rewrite read_four_digits by lia. read_on.
  rewrite read_two_digits by lia. read_on.
  rewrite read_two_digits by lia. read_on.
  rewrite read_two_digits by lia. read_on.
  rewrite read_two_digits by lia. read_on.
  rewrite read_two_digits by lia. read_on.
  destruct (microsecond d =? 0) eqn:Eus.
  - apply Z.eqb_eq in Eus. read_on.
    replace (mk_datetime _ _ _ _ _ _ 0) with d
      by (destruct d; cbn in *; subst; reflexivity).
    rewrite Hv. reflexivity.
  - read_on.
    rewrite read_six_digits by lia. read_on.
    replace (mk_datetime _ _ _ _ _ _ _) with d by (destruct d; reflexivity).
    rewrite Hv. reflexivity.
Qed.

Lemma days_between_ge now t r :
  r <= days_between now t <->
  r * microseconds_per_day <= to_microseconds now - to_microseconds t.
Proof.
  unfold days_between, microseconds_per_day. split; intros H.
  - assert (Hd := Z.mul_div_le (to_microseconds now - to_microseconds t)
                                86400000000 ltac:(lia)).
    lia.
  - apply Z.div_le_lower_bound; lia.
Qed.

End DatetimeFacts.
(* ===================================================================== *)
(** ** The cleanup scheduler *)
(* ===================================================================== *)

Section Removal.
Context {A : Type} `{EqDecision A}.
Implicit Types l : list A.

Lemma list_remove_Some x l :
  x ∈ l -> exists l', list_remove x l = Some l' /\ l ≡ₚ x :: l' /\ sublist l' l.
Proof.
  induction l as [|y l IH]; intros Hx; [inversion Hx|].
  simpl. destruct (decide (x = y)) as [->|Hne].
  - exists l. split; [reflexivity|]. split; [reflexivity|].
    apply sublist_cons. reflexivity.
  - apply elem_of_cons in Hx as [Hx|Hx]; [contradiction|].
    destruct (IH Hx) as (l' & -> & Hp & Hs).
    exists (y :: l'). split; [reflexivity|]. split.
    + rewrite Hp. apply Permutation_swap.
    + apply sublist_skip. exact Hs.
Qed.

Lemma list_remove_None x l : x ∉ l -> list_remove x l = None.
Proof.
  induction l as [|y l IH]; intros Hx; [reflexivity|].
  simpl. apply not_elem_of_cons in Hx as [Hne Hx].
  destruct (decide (x = y)); [contradiction|]. rewrite IH by exact Hx.
  reflexivity.
Qed.

Lemma remove_each_Some rm l :
  rm ⊆+ l ->
  exists l', remove_each rm l = Some l' /\ l ≡ₚ rm ++ l' /\ sublist l' l.
Proof.
  revert l. induction rm as [|x rm IH]; intros l Hsub.
  - exists l. split; [reflexivity|]. split; reflexivity.
  - assert (Hx : x ∈ l).
    { eapply elem_of_submseteq; [|exact Hsub]. constructor. }
    destruct (list_remove_Some x l Hx) as (l1 & E & Hp & Hs).
    simpl. rewrite E.
    assert (Hsub1 : rm ⊆+ l1).
    { rewrite Hp in Hsub. apply (submseteq_app_inv_l rm l1 [x]). exact Hsub. }
    destruct (IH l1 Hsub1) as (l' & E' & Hp' & Hs').
    exists l'. split; [exact E'|]. split.
    + rewrite Hp, Hp'. reflexivity.
    + etrans; eassumption.
Qed.

End Removal.


Section SweepFacts.

Variable World : Type.
Variable os_path_exists : World -> string -> bool.
Variable os_remove : World -> string -> bool * World.
Variable uploader_delete_file : World -> string -> result bool * World.

Local Abbreviation delete_file := (delete_file World os_path_exists os_remove uploader_delete_file).
Local Abbreviation sweep := (sweep World os_path_exists os_remove uploader_delete_file).
Local Abbreviation check_and_cleanup :=
  (check_and_cleanup World os_path_exists os_remove uploader_delete_file).

Lemma delete_file_attempted w item :
  attempted (fst (delete_file w item)) = item.
Proof.
  unfold CleanupScheduler.delete_file.
  destruct (if os_path_exists w (file_path item) then _ else _) as [ok w1].
  destruct (uploader_delete_file w1 (filename item)) as [r w2]. reflexivity.
Qed.

(** The sweep attempts the due entries, each once, in ledger order. *)
Lemma sweep_attempts now w schedule :
  attempted <$> fst (sweep now w schedule)
  = filter (fun item => is_due now item = true) schedule.
Proof.
  revert w. induction schedule as [|item rest IH]; intros w; [reflexivity|].
  simpl. rewrite filter_cons.
  destruct (is_due now item) eqn:E.
  - destruct (decide (true = true)) as [_|n]; [|contradiction].
    pose proof (delete_file_attempted w item) as Ha.
    destruct (delete_file w item) as [a w1]. simpl in Ha.
    specialize (IH w1). destruct (sweep now w1 rest) as [log w2].
    simpl in *. rewrite Ha. f_equal. exact IH.
  - destruct (decide (false = true)) as [n|_]; [discriminate|]. apply IH.
Qed.

Lemma items_to_remove_sublist now w schedule :
  sublist (items_to_remove (fst (sweep now w schedule))) schedule.
Proof.
  unfold items_to_remove. etrans.
  - apply fmap_sublist. apply sublist_filter.
  - rewrite sweep_attempts. apply sublist_filter.
Qed.

Lemma check_and_cleanup_log now w s :
  snd (check_and_cleanup now w s) = fst (sweep now w (cleanup_schedule s)).
Proof.
  unfold CleanupScheduler.check_and_cleanup.
  destruct (sweep now w (cleanup_schedule s)) as [log w'].
  destruct (remove_each _ _); reflexivity.
Qed.

(** The sweep never fails on a [remove]; the ledger afterwards is the
    ledger before without the entries whose deletion succeeded. *)
Lemma check_and_cleanup_ledger now w s :
  exists s',
    fst (fst (check_and_cleanup now w s)) = Some s' /\
    cleanup_schedule s
      ≡ₚ items_to_remove (snd (check_and_cleanup now w s)) ++ cleanup_schedule s' /\
    sublist (cleanup_schedule s') (cleanup_schedule s).
Proof.
  rewrite check_and_cleanup_log.
  pose proof (items_to_remove_sublist now w (cleanup_schedule s)) as Hsub.
  unfold CleanupScheduler.check_and_cleanup.
  destruct (sweep now w (cleanup_schedule s)) as [log w']. simpl in *.
  destruct (remove_each_Some _ _ (sublist_submseteq _ _ Hsub))
    as (l' & E & Hp & Hs).
  rewrite E. eexists. split; [reflexivity|]. simpl. split; assumption.
Qed.


End SweepFacts.

Lemma load_item_store_item item :
  valid (upload_time item) = true ->
  load_item fromisoformat (store_item item) = Some item.
Proof.
  intros Hv. unfold load_item, store_item.
  cbn [stored_upload_time stored_file_path stored_download_link
       stored_filename stored_delete_after_days].
  rewrite fromisoformat_isoformat by exact Hv. destruct item; reflexivity.
Qed.

(** C7.  Saving a ledger whose entries carry representable timestamps and
    loading what was saved gives the same entries, with the same fields, in
    the same order. *)
Theorem save_then_load_is_identity (schedule : list cleanup_item) :
  Forall (fun item => valid (upload_time item) = true) schedule ->
  load_cleanup_schedule fromisoformat (save_cleanup_schedule schedule)
  = schedule.
Proof.
  intros H. unfold load_cleanup_schedule, save_cleanup_schedule.
  assert (E : load_items fromisoformat (store_item <$> schedule)
              = Some schedule).
  { induction H as [|item rest Hv _ IH]; [reflexivity|].
    rewrite fmap_cons. cbn [load_items].
    rewrite load_item_store_item by exact Hv. rewrite IH. reflexivity. }
  rewrite E. reflexivity.
Qed.

Section LoadFacts.
Variable parse_iso : string -> option datetime.

Lemma load_items_all_parsable items :
  Forall (fun it => is_Some (parse_iso (stored_upload_time it))) items ->
  load_items parse_iso items = Some (omap (load_item parse_iso) items) /\
  length (omap (load_item parse_iso) items) = length items.
Proof.
  induction 1 as [|it rest [t Ht] _ [IH1 IH2]]; [split; reflexivity|].
  assert (exists item, load_item parse_iso it = Some item) as [item Hi].
  { unfold load_item. rewrite Ht. eexists. reflexivity. }
  cbn [load_items omap list_omap]. rewrite Hi, IH1.
  split; [reflexivity|]. cbn [length]. rewrite IH2. reflexivity.
Qed.

Lemma load_items_some_unparsable items :
  Exists (fun it => parse_iso (stored_upload_time it) = None) items ->
  load_items parse_iso items = None.
Proof.
  induction 1 as [it rest Hn|it rest _ IH].
  - cbn [load_items]. unfold load_item. rewrite Hn. reflexivity.
  - cbn [load_items]. rewrite IH. destruct (load_item _ it); reflexivity.
Qed.

(** C5, amended.  Whatever the timestamp reader accepts: when every stored
    entry has a parsable timestamp the load keeps all of them, in order;
    when one stored entry has an unparsable timestamp the load leaves the
    empty ledger, so the well-formed entries of the file are discarded with
    it. *)
Theorem load_is_all_or_nothing (items : list stored_item) :
  (Forall (fun it => is_Some (parse_iso (stored_upload_time it))) items ->
   load_cleanup_schedule parse_iso (Stored items)
   = load_dropping_unparsable parse_iso (Stored items) /\
   length (load_cleanup_schedule parse_iso (Stored items)) = length items) /\
  (Exists (fun it => parse_iso (stored_upload_time it) = None) items ->
   load_cleanup_schedule parse_iso (Stored items) = []).
Proof.
  split; intros H.
  - destruct (load_items_all_parsable items H) as [E L].
    unfold load_cleanup_schedule, load_dropping_unparsable. rewrite E.
    split; [reflexivity | exact L].
  - unfold load_cleanup_schedule.
    rewrite load_items_some_unparsable by exact H. reflexivity.
Qed.

End LoadFacts.

Lemma filter_fmap_filter {A B : Type} (f : A -> B)
  (P : B -> Prop) `{forall x, Decision (P x)}
  (Q : A -> Prop) `{forall x, Decision (Q x)} (l : list A) :
  (forall a, a ∈ l -> P (f a) -> Q a) ->
  filter P (f <$> filter Q l) = filter P (f <$> l).
Proof.
  induction l as [|a l IH]; intros Himp; [reflexivity|].
  assert (IH' : filter P (f <$> filter Q l) = filter P (f <$> l)).
  { apply IH. intros b Hb. apply Himp. now constructor. }
  rewrite (filter_cons Q). destruct (decide (Q a)) as [Hq|Hq].
  - rewrite !fmap_cons, !filter_cons, IH'. reflexivity.
  - rewrite fmap_cons, filter_cons. destruct (decide (P (f a))) as [Hp|Hp].
    + exfalso. apply Hq, Himp; [constructor | exact Hp].
    + exact IH'.
Qed.

Section SweepTheorems.

Variable World : Type.
Variable os_path_exists : World -> string -> bool.
Variable os_remove : World -> string -> bool * World.
Variable uploader_delete_file : World -> string -> result bool * World.

Local Abbreviation delete_file :=
  (delete_file World os_path_exists os_remove uploader_delete_file).
Local Abbreviation sweep :=
  (sweep World os_path_exists os_remove uploader_delete_file).
Local Abbreviation check_and_cleanup :=
  (check_and_cleanup World os_path_exists os_remove uploader_delete_file).

(** Every attempt of a sweep is a call of [delete_file] in some world. *)
Lemma sweep_log_delete_file now w schedule a :
  a ∈ fst (sweep now w schedule) ->
  exists w0, a = fst (delete_file w0 (attempted a)).
Proof.
  revert w. induction schedule as [|item rest IH]; intros w Ha.
  - inversion Ha.
  - simpl in Ha. destruct (is_due now item); [|apply (IH w Ha)].
    pose proof (delete_file_attempted World os_path_exists os_remove
                  uploader_delete_file w item) as Hat.
    destruct (delete_file w item) as [a0 w1] eqn:E.
    specialize (IH w1). destruct (sweep now w1 rest) as [log w2].
    simpl in *. apply elem_of_cons in Ha as [->|Ha]; [|apply IH, Ha].
    exists w. rewrite Hat, E. reflexivity.
Qed.

Lemma due_item_attempted now w s item :
  item ∈ cleanup_schedule s -> is_due now item = true ->
  item ∈ attempted <$> snd (check_and_cleanup now w s).
Proof.
  intros Hin Hdue. rewrite check_and_cleanup_log, sweep_attempts.
  apply list_elem_of_filter. split; assumption.
Qed.





(** C6.  At the creation time plus exactly the retention period the elapsed
    whole days equal the retention days, the entry is due, and a sweep at
    that time attempts it. *)
Theorem entry_is_due_exactly_at_retention now item :
  to_microseconds now
  = (to_microseconds (upload_time item)
     + delete_after_days item * microseconds_per_day)%Z ->
  days_between now (upload_time item) = delete_after_days item /\
  is_due now item = true /\
  (forall w s, item ∈ cleanup_schedule s ->
     item ∈ attempted <$> snd (check_and_cleanup now w s)).
Proof.
  intros H.
  assert (Hd : days_between now (upload_time item) = delete_after_days item).
  { unfold days_between. rewrite H.
    replace (_ + _ - _)%Z
      with (delete_after_days item * microseconds_per_day)%Z by lia.
    apply Z.div_mul. discriminate. }
  assert (Hdue : is_due now item = true).
  { unfold is_due. rewrite Hd. apply Z.leb_refl. }
  split; [exact Hd|]. split; [exact Hdue|].
  intros w s Hin. apply due_item_attempted; assumption.
Qed.

Lemma delete_file_missing_local w item :
  os_path_exists w (file_path item) = false ->
  local_deleted (fst (delete_file w item)) = true /\
  (succeeded (fst (delete_file w item)) = true <->
   fst (uploader_delete_file w (filename item)) = Returned true) /\
  snd (delete_file w item) = snd (uploader_delete_file w (filename item)).
Proof.
  intros H. unfold CleanupScheduler.delete_file, succeeded. rewrite H.
  destruct (uploader_delete_file w (filename item)) as [[b|e] w2]; simpl.
  - split; [reflexivity|]. split; [|reflexivity].
    split; [intros ->; reflexivity | intros [= ->]; reflexivity].
  - split; [reflexivity|]. split; [|reflexivity].
    split; discriminate.
Qed.

(** C9.  When the local file of an entry does not exist, [delete_file]
    does not call [os.remove], counts the local step as passed, and succeeds
    exactly when the cloud reports the deletion.  With the file absent and
    the cloud confirming, a sweep at which the entry is due leaves a ledger
    without the entry. *)
Theorem missing_local_file_counts_as_deleted item :
  (forall w, os_path_exists w (file_path item) = false ->
     local_deleted (fst (delete_file w item)) = true /\
     (succeeded (fst (delete_file w item)) = true <->
      fst (uploader_delete_file w (filename item)) = Returned true) /\
     snd (delete_file w item) = snd (uploader_delete_file w (filename item)))
  /\
  ((forall w, os_path_exists w (file_path item) = false) ->
   (forall w, fst (uploader_delete_file w (filename item)) = Returned true) ->
   forall now w s, is_due now item = true ->
     exists s', fst (fst (check_and_cleanup now w s)) = Some s' /\
                item ∉ cleanup_schedule s').
Proof.
  split; [intros w; apply delete_file_missing_local|].
  intros Hex Hcloud now w s Hdue.
  destruct (check_and_cleanup_ledger World os_path_exists os_remove
              uploader_delete_file now w s) as (s' & E & Hp & _).
  exists s'. split; [exact E|].
  rewrite check_and_cleanup_log in Hp.
  set (log := fst (sweep now w (cleanup_schedule s))) in *.
  assert (Hall : forall a, a ∈ log -> attempted a = item -> succeeded a = true).
  { intros a Ha Hit.
    destruct (sweep_log_delete_file now w _ a Ha) as [w0 Hw0].
    rewrite Hit in Hw0. rewrite Hw0.
    apply (delete_file_missing_local w0 item (Hex w0)). apply Hcloud. }
  assert (Hcount :
    filter (fun x => x = item) (items_to_remove log)
    = filter (fun x => x = item) (cleanup_schedule s)).
  { unfold items_to_remove.
    rewrite (filter_fmap_filter attempted (fun x => x = item)
               (fun a => succeeded a = true) log Hall).
    unfold log. rewrite sweep_attempts.
    rewrite list_filter_filter. apply list_filter_iff.
    intros x. split; [intros [-> _]; reflexivity|].
    intros ->. split; [reflexivity | exact Hdue]. }
  assert (Hlen : length (filter (fun x => x = item) (cleanup_schedule s'))
                 = 0%nat).
  { assert (Hl := f_equal length Hcount).
    rewrite (Permutation_length (filter_Permutation (fun x => x = item) _ _ Hp))
      in Hl.
    rewrite filter_app, length_app in Hl. lia. }
  intros Hin.
  assert (Hf : item ∈ filter (fun x => x = item) (cleanup_schedule s'))
    by (apply list_elem_of_filter; split; [reflexivity | exact Hin]).
  apply nil_length_inv in Hlen. rewrite Hlen in Hf. inversion Hf.
Qed.

End SweepTheorems.

Section SchedulerExamples.
Import Examples.

(** C5 as stated fails: the first stored entry has a parsable timestamp,
    the second has not; the load leaves the empty ledger, where dropping the
    corrupt entry alone would keep the first. *)
Lemma corrupt_sibling_empties_ledger :
  load_item fromisoformat good_stored = Some artifact /\
  load_item fromisoformat bad_stored = None /\
  load_cleanup_schedule fromisoformat (Stored [good_stored; bad_stored]) = [] /\
  load_dropping_unparsable fromisoformat (Stored [good_stored; bad_stored])
  = [artifact] /\
  load_cleanup_schedule fromisoformat (Stored [good_stored; bad_stored])
  <> load_dropping_unparsable fromisoformat (Stored [good_stored; bad_stored]).
Proof.
  assert (E1 : load_item fromisoformat good_stored = Some artifact)
    by (vm_compute; reflexivity).
  assert (E2 : load_item fromisoformat bad_stored = None)
    by (vm_compute; reflexivity).
  assert (E3 : load_cleanup_schedule fromisoformat
                 (Stored [good_stored; bad_stored]) = []).
  { unfold load_cleanup_schedule. cbn [load_items]. rewrite E1, E2.
    reflexivity. }
  assert (E4 : load_dropping_unparsable fromisoformat
                 (Stored [good_stored; bad_stored]) = [artifact]).
  { unfold load_dropping_unparsable. cbn [omap list_omap]. rewrite E1, E2.
    reflexivity. }
  repeat split; try assumption. rewrite E3, E4. discriminate.
Qed.

Lemma load_is_all_or_nothing_witness :
  load_cleanup_schedule fromisoformat (Stored [good_stored; bad_stored]) = [] /\
  length (load_cleanup_schedule fromisoformat (Stored [good_stored]))
  = 1%nat.
Proof.
  split.
  - apply (proj2 (load_is_all_or_nothing fromisoformat
                    [good_stored; bad_stored])).
    apply List.Exists_cons_tl, List.Exists_cons_hd. vm_compute. reflexivity.
  - apply (proj1 (load_is_all_or_nothing fromisoformat [good_stored])).
    apply List.Forall_cons; [|apply List.Forall_nil]. exists uploaded_at.
    vm_compute. reflexivity.
Defined.

Lemma save_then_load_is_identity_witness :
  load_cleanup_schedule fromisoformat
    (save_cleanup_schedule [artifact; other_artifact])
  = [artifact; other_artifact].
Proof.
  apply (save_then_load_is_identity [artifact; other_artifact]).
  apply List.Forall_cons; [vm_compute; reflexivity|].
  apply List.Forall_cons; [vm_compute; reflexivity|]. apply List.Forall_nil.
Defined.

Lemma entry_is_due_exactly_at_retention_witness :
  is_due a_week_later artifact = true.
Proof.
  apply (entry_is_due_exactly_at_retention disk disk_exists disk_remove
           disk_cloud_confirms a_week_later artifact).
  vm_compute. reflexivity.
Defined.


Lemma missing_local_file_counts_as_deleted_witness :
  exists s',
    fst (fst (check_and_cleanup disk (fun _ _ => false) disk_remove
                disk_cloud_confirms a_week_later empty_disk
                (ledger_of [artifact]))) = Some s' /\
    artifact ∉ cleanup_schedule s'.
Proof.
  apply (proj2 (missing_local_file_counts_as_deleted disk (fun _ _ => false)
                  disk_remove disk_cloud_confirms artifact)).
  - intros w. reflexivity.
  - intros w. reflexivity.
  - vm_compute. reflexivity.
Defined.

End SchedulerExamples.

(* ===================================================================== *)
(** ** Further properties of the monitor *)
(* ===================================================================== *)

Section MonitorInvariant.
Import USBMonitor Examples.

Lemma well_tracked_init : well_tracked init.
Proof.
  split.
  - intros p Hp. exfalso. revert Hp. apply not_elem_of_empty.
  - intros p d H.
    change (device_info_cache init) with (∅ : gmap string device_info) in H.
    rewrite lookup_empty in H. discriminate.
Qed.

Lemma well_tracked_device_inserted sys info st :
  well_tracked st -> well_tracked (fst (device_inserted sys info st)).
Proof.
  intros [Hk Hc]. rewrite device_inserted_fst. split; simpl.
  - intros p Hp. destruct (decide (device info = p)) as [->|Hne].
    + rewrite lookup_insert_eq. eexists. reflexivity.
    + rewrite lookup_insert_ne by exact Hne. apply Hk.
      apply elem_of_union in Hp as [Hp|Hp]; [|exact Hp].
      apply elem_of_singleton in Hp. congruence.
  - intros p d. destruct (decide (device info = p)) as [E|Hne].
    + rewrite E, lookup_insert_eq. intros [= <-]. exact E.
    + rewrite lookup_insert_ne by exact Hne. apply Hc.
Qed.

Lemma well_tracked_removed p info st :
  device_info_cache st !! p = Some info ->
  well_tracked st ->
  well_tracked (fst (and_then (device_removed info) (del_cache p) st)).
Proof.
  intros Hp [Hk Hc]. rewrite and_then_fst. simpl.
  rewrite (Hc p info Hp). split; simpl.
  - intros q Hq. apply elem_of_difference in Hq as [Hq Hne].
    rewrite lookup_delete_ne.
    + apply Hk, Hq.
    + intros ->. apply Hne, elem_of_singleton. reflexivity.
  - intros q d Hq. apply lookup_delete_Some in Hq as [_ Hq]. apply (Hc q d Hq).
Qed.

Lemma well_tracked_handle_event sys ev st :
  well_tracked st -> well_tracked (fst (handle_event sys ev st)).
Proof.
  intros H. unfold handle_event.
  destruct (String.eqb (udev_action ev) "add").
  - unfold handle_device_add. destruct (device_node ev) as [p|]; [|exact H].
    destruct (negb (str_truthy p)); [exact H|].
    destruct (is_usb_storage_device sys p); [|exact H].
    destruct (get_device_info sys p); [|exact H].
    apply well_tracked_device_inserted, H.
  - destruct (String.eqb (udev_action ev) "remove"); [|exact H].
    unfold handle_device_remove. destruct (device_node ev) as [p|]; [|exact H].
    destruct (negb (str_truthy p)); [exact H|].
    destruct (device_info_cache st !! p) as [info|] eqn:E; [|exact H].
    apply well_tracked_removed; assumption.
Qed.

Lemma refresh_cache_spec devices (cache : gmap string device_info) :
  (forall p d, cache !! p = Some d -> device d = p) ->
  let cache' := fold_left (fun c dev => <[device dev := dev]> c) devices cache in
  (forall p d, cache' !! p = Some d -> device d = p) /\
  (forall p, is_Some (cache !! p) -> is_Some (cache' !! p)) /\
  (forall p, p ∈ device_paths devices -> is_Some (cache' !! p)).
Proof.
  revert cache. induction devices as [|d ds IH]; intros cache Hc; simpl.
  - split; [exact Hc|]. split; [auto|].
    intros p Hp. exfalso. revert Hp. apply not_elem_of_empty.
  - assert (Hc' : forall p d0, <[device d := d]> cache !! p = Some d0
                               -> device d0 = p).
    { intros p d0. destruct (decide (device d = p)) as [E|Hne].
      - rewrite E, lookup_insert_eq. intros [= <-]. exact E.
      - rewrite lookup_insert_ne by exact Hne. apply Hc. }
    destruct (IH _ Hc') as (H1 & H2 & H3).
    split; [exact H1|]. split.
    + intros p Hp. apply H2. destruct (decide (device d = p)) as [->|Hne].
      * rewrite lookup_insert_eq. eexists. reflexivity.
      * rewrite lookup_insert_ne by exact Hne. exact Hp.
    + intros p Hp. unfold device_paths in Hp. simpl in Hp.
      apply elem_of_union in Hp as [Hp|Hp].
      * apply elem_of_singleton in Hp. subst p. apply H2.
        rewrite lookup_insert_eq. eexists. reflexivity.
      * apply H3. exact Hp.
Qed.

Lemma well_tracked_refresh sys st :
  (forall p d, device_info_cache st !! p = Some d -> device d = p) ->
  well_tracked (fst (poll_reconcile sys st)).
Proof.
  intros Hc.
  destruct (refresh_cache_spec (usb_storage_devices sys) _ Hc) as (H1 & _ & H3).
  split; simpl; [exact H3 | exact H1].
Qed.

Lemma well_tracked_scan sys st :
  well_tracked st -> well_tracked (fst (scan_existing_devices sys st)).
Proof. intros [_ Hc]. apply (well_tracked_refresh sys st Hc). Qed.

Lemma well_tracked_poll_cycle sys st :
  well_tracked st -> well_tracked (fst (poll_cycle sys st)).
Proof.
  intros H. rewrite poll_cycle_fst. cbv zeta.
  apply well_tracked_refresh.
  assert (H1 : well_tracked
            (fst (poll_inserted sys
                    (elements (device_paths (usb_storage_devices sys)
                               ∖ known_devices st)) st))).
  { unfold poll_inserted. apply (for_each_state well_tracked); [|exact H].
    intros q s _ Hs. destruct (find_device _ q); [|exact Hs].
    apply well_tracked_device_inserted, Hs. }
  set (st1 := fst (poll_inserted sys _ st)) in *.
  assert (H2 : well_tracked
                 (fst (poll_removed
                         (elements (known_devices st1
                                    ∖ device_paths (usb_storage_devices sys)))
                         st1))).
  { unfold poll_removed. apply (for_each_state well_tracked); [|exact H1].
    intros q s _ Hs. unfold poll_removed_one.
    destruct (device_info_cache s !! q) as [info|] eqn:E; [|exact Hs].
    apply well_tracked_removed; assumption. }
  apply H2.
Qed.

Lemma well_tracked_handle_signal s st :
  well_tracked st -> well_tracked (fst (handle_signal s st)).
Proof.
  intros Hst. destruct s as [sys|sys ev|sys]; simpl.
  - apply well_tracked_scan, Hst.
  - apply well_tracked_handle_event, Hst.
  - apply well_tracked_poll_cycle, Hst.
Qed.

(** X1.  Whatever the monitor has gone through since its construction
    (start-up scans, notifications of the event source, polling cycles),
    every path of the known set has a cached snapshot, and every cached
    snapshot is stored under its own device path. *)
Theorem monitor_keeps_known_paths_cached (signals : list signal) :
  let st := fst (run signals init) in
  (forall p, p ∈ known_devices st -> is_Some (device_info_cache st !! p)) /\
  (forall p d, device_info_cache st !! p = Some d -> device d = p).
Proof.
  cbv zeta. fold (well_tracked (fst (run signals init))).
  unfold run. revert signals. intros signals.
  generalize well_tracked_init. generalize init.
  induction signals as [|s rest IH]; intros st Hst; [exact Hst|].
  cbn [for_each]. rewrite and_then_fst. apply IH.
  apply well_tracked_handle_signal, Hst.
Qed.

End MonitorInvariant.

Section UncachedRemoval.
Import USBMonitor Examples.

Lemma poll_inserted_fires_no_removal sys p l st :
  Forall (not_removal_of p) (snd (poll_inserted sys l st)).
Proof.
  unfold poll_inserted. apply for_each_trace. intros q s _.
  destruct (find_device _ q); [|constructor].
  rewrite device_inserted_snd.
  destruct (is_device_mounted _ _); repeat constructor.
Qed.

Lemma poll_inserted_keeps_unknown sys p l st :
  p ∉ l -> p ∉ known_devices st ->
  p ∉ known_devices (fst (poll_inserted sys l st)).
Proof.
  intros Hl Hk. unfold poll_inserted.
  apply (for_each_state (fun s => p ∉ known_devices s)); [|exact Hk].
  intros q s Hq Hs. destruct (find_device _ q) as [info|] eqn:E; [|exact Hs].
  apply find_device_Some in E as [Hd _].
  rewrite device_inserted_fst. cbn [known_devices].
  rewrite elem_of_union, elem_of_singleton. intros [Hp|Hp]; [|contradiction].
  apply Hl. rewrite Hp, Hd. exact Hq.
Qed.

Lemma well_tracked_poll_inserted sys l st :
  well_tracked st -> well_tracked (fst (poll_inserted sys l st)).
Proof.
  intros H. unfold poll_inserted.
  apply (for_each_state well_tracked); [|exact H].
  intros q s _ Hs. destruct (find_device _ q); [|exact Hs].
  apply well_tracked_device_inserted, Hs.
Qed.

Lemma poll_removed_fires_only_listed p l st :
  well_tracked st -> p ∉ l ->
  Forall (not_removal_of p) (snd (poll_removed l st)).
Proof.
  revert st. induction l as [|q l IH]; intros st Hst Hp; [constructor|].
  apply not_elem_of_cons in Hp as [Hne Hp].
  unfold poll_removed. cbn [for_each]. rewrite and_then_snd.
  fold (poll_removed l). apply Forall_app. split.
  - unfold poll_removed_one.
    destruct (device_info_cache st !! q) as [info|] eqn:E; [|constructor].
    rewrite and_then_snd. cbn. constructor; [|constructor].
    cbn. rewrite (proj2 Hst q info E). congruence.
  - apply IH; [|exact Hp]. unfold poll_removed_one.
    destruct (device_info_cache st !! q) as [info|] eqn:E; [|exact Hst].
    apply well_tracked_removed; assumption.
Qed.

(** C10.  In every state the monitor reaches, a removal signal for a path
    that is not in the cache is a no-operation.  On the event strategy the
    [remove] notification fires no callback and leaves the known set and
    the cache as they are.  On the polling strategy the handling of the
    path as a removed device does the same; such a path is not in the known
    set, and a cycle that does not enumerate it fires no removal callback
    for it and leaves it outside the known set and outside the cache. *)
Theorem uncached_removal_is_noop (signals : list signal) (p : string) :
  let st := fst (run signals init) in
  device_info_cache st !! p = None ->
  (forall sys,
     handle_event sys {| udev_action := "remove"; device_node := Some p |} st
     = (st, [])) /\
  poll_removed_one p st = (st, []) /\
  (p ∉ known_devices st) /\
  (forall sys,
     p ∉ device_paths (usb_storage_devices sys) ->
     Forall (not_removal_of p) (snd (poll_cycle sys st)) /\
     (p ∈ known_devices (fst (poll_cycle sys st)) <-> p ∈ known_devices st) /\
     device_info_cache (fst (poll_cycle sys st)) !! p
     = device_info_cache st !! p).
Proof.
  intros st Hc.
  assert (Hst : well_tracked st).
  { unfold st, run. apply (for_each_state well_tracked);
      [|apply well_tracked_init].
    intros s st0 _ Hst0. apply well_tracked_handle_signal, Hst0. }
  assert (Hk : p ∉ known_devices st).
  { intros Hin. destruct (proj1 Hst p Hin) as [d Hd]. congruence. }
  split; [|split; [|split]].
  - intros sys. unfold handle_event. cbn [udev_action device_node].
    change (String.eqb "remove" "add") with false.
    change (String.eqb "remove" "remove") with true. cbn iota.
    unfold handle_device_remove. destruct (negb (str_truthy p)); [reflexivity|].
    rewrite Hc. reflexivity.
  - unfold poll_removed_one. rewrite Hc. reflexivity.
  - exact Hk.
  - intros sys Hp.
    destruct (poll_cycle_forgets sys st p Hp) as [Hknown Hcache].
    assert (Hnew : p ∉ elements (device_paths (usb_storage_devices sys)
                                 ∖ known_devices st)).
    { rewrite elem_of_elements, elem_of_difference. intros [Hin _].
      contradiction. }
    split; [|split].
    + rewrite poll_cycle_snd. cbv zeta. apply Forall_app. split.
      * apply poll_inserted_fires_no_removal.
      * apply poll_removed_fires_only_listed.
        -- apply well_tracked_poll_inserted, Hst.
        -- rewrite elem_of_elements, elem_of_difference. intros [Hin _].
           revert Hin. apply poll_inserted_keeps_unknown; assumption.
    + rewrite Hknown. split; intros Hin; contradiction.
    + rewrite Hc. apply Hcache. right. exact Hc.
Qed.

Lemma uncached_removal_is_noop_witness :
  poll_removed_one "/dev/sdb1"
    (fst (run [PollCycle stick_mounted; PollCycle no_stick] init))
  = (fst (run [PollCycle stick_mounted; PollCycle no_stick] init), []).
Proof.
  apply (uncached_removal_is_noop [PollCycle stick_mounted; PollCycle no_stick]
           "/dev/sdb1").
  vm_compute. reflexivity.
Defined.

End UncachedRemoval.

Section MonitorCycles.
Import USBMonitor Examples.

Lemma find_device_listed devices p :
  p ∈ device_paths devices ->
  exists d, find_device devices p = Some d /\ device d = p /\ d ∈ devices.
Proof.
  unfold device_paths. intros Hp. apply elem_of_list_to_set in Hp.
  apply list_elem_of_fmap in Hp as (d0 & -> & Hd0).
  unfold find_device.
  destruct (List.find _ devices) as [d|] eqn:E.
  - exists d. split; [reflexivity|]. apply (find_device_Some devices _ d E).
  - exfalso. apply list_elem_of_In in Hd0.
    pose proof (find_none _ _ E _ Hd0) as Hn. simpl in Hn.
    apply bool_decide_eq_false in Hn. apply Hn. reflexivity.
Qed.

Lemma poll_inserted_callbacks sys p d l st :
  NoDup l -> p ∈ l ->
  find_device (usb_storage_devices sys) p = Some d ->
  insert_callbacks p (snd (poll_inserted sys l st))
  = if is_device_mounted sys p then [d] else [].
Proof.
  intros Hnd Hp Hd. revert st. induction Hnd as [|q l Hq Hnd IH]; intros st.
  - inversion Hp.
  - unfold poll_inserted. cbn [for_each]. rewrite and_then_snd.
    rewrite insert_callbacks_app. fold (poll_inserted sys l).
    destruct (find_device_Some _ _ _ Hd) as [Hdp _].
    apply elem_of_cons in Hp as [<-|Hp].
    + rewrite Hd, device_inserted_snd, Hdp.
      rewrite (insert_callbacks_nil p (snd (poll_inserted sys l _)))
        by (apply poll_inserted_trace; exact Hq).
      destruct (is_device_mounted sys p); [|reflexivity].
      unfold insert_callbacks. simpl.
      rewrite bool_decide_eq_true_2 by exact Hdp. reflexivity.
    + rewrite IH by exact Hp.
      assert (Hne : q <> p) by (intros ->; contradiction).
      rewrite insert_callbacks_nil; [reflexivity|].
      destruct (find_device _ q) as [dq|] eqn:Eq; [|constructor].
      rewrite device_inserted_snd.
      destruct (find_device_Some _ _ _ Eq) as [Hdq _].
      destruct (is_device_mounted sys (device dq)); constructor;
        [|constructor].
      simpl. congruence.
Qed.

(** X2.  A polling cycle fires exactly one insert callback for a newly listed
    mounted device, none for a newly listed device that is not mounted, and
    the path is known afterwards. *)
Theorem polling_fires_once_for_new_device sys st p :
  p ∈ device_paths (usb_storage_devices sys) ->
  p ∉ known_devices st ->
  exists d,
    find_device (usb_storage_devices sys) p = Some d /\
    device d = p /\
    insert_callbacks p (snd (poll_cycle sys st))
    = (if is_device_mounted sys p then [d] else []) /\
    (p ∈ known_devices (fst (poll_cycle sys st))).
Proof.
  intros Hp Hk. destruct (find_device_listed _ p Hp) as (d & Hd & Hdp & _).
  exists d. split; [exact Hd|]. split; [exact Hdp|]. split.
  - rewrite poll_cycle_snd. cbv zeta. rewrite insert_callbacks_app.
    rewrite (poll_inserted_callbacks sys p d).
    + rewrite (insert_callbacks_nil p (snd (poll_removed _ _)))
        by apply poll_removed_trace.
      apply app_nil_r.
    + apply NoDup_elements.
    + rewrite elem_of_elements, elem_of_difference. split; assumption.
    + exact Hd.
  - rewrite poll_cycle_fst. exact Hp.
Qed.

Lemma poll_removed_fires p d l st :
  p ∈ l -> device_info_cache st !! p = Some d ->
  OnRemove d ∈ snd (poll_removed l st).
Proof.
  revert st. induction l as [|q l IH]; intros st Hp Hc; [inversion Hp|].
  unfold poll_removed. cbn [for_each]. rewrite and_then_snd.
  fold (poll_removed l). apply elem_of_app.
  destruct (decide (q = p)) as [->|Hne].
  - left. unfold poll_removed_one. rewrite Hc, and_then_snd. simpl.
    apply elem_of_cons. left. reflexivity.
  - right. apply elem_of_cons in Hp as [Hp|Hp]; [congruence|].
    apply IH; [exact Hp|]. rewrite poll_removed_one_cache.
    rewrite lookup_delete_ne by exact Hne. exact Hc.
Qed.

(** X4.  During a run of the monitor, a polling cycle that no longer lists a
    known path fires the removal callback with the snapshot of that path
    and forgets the path. *)
Theorem polling_reports_every_disappearance (signals : list signal) sys p :
  let st := fst (run signals init) in
  p ∈ known_devices st ->
  p ∉ device_paths (usb_storage_devices sys) ->
  exists d,
    device_info_cache st !! p = Some d /\
    device d = p /\
    (OnRemove d ∈ snd (poll_cycle sys st)) /\
    (p ∉ known_devices (fst (poll_cycle sys st))) /\
    device_info_cache (fst (poll_cycle sys st)) !! p = None.
Proof.
  intros st Hk Hp.
  assert (Htracked : well_tracked (fst (run signals init))).
  { unfold run. apply (for_each_state well_tracked);
      [|apply well_tracked_init].
    intros s st0 _ Hst0. apply well_tracked_handle_signal, Hst0. }
  destruct Htracked as [Hcached Hkeys].
  fold st in Hcached, Hkeys.
  destruct (Hcached p Hk) as [d Hd]. exists d.
  split; [exact Hd|]. split; [apply (Hkeys p d Hd)|].
  destruct (poll_cycle_forgets sys st p Hp) as [Hknown Hcache].
  split; [|split].
  - rewrite poll_cycle_snd. cbv zeta. apply elem_of_app. right.
    assert (Hnew : p ∉ elements (device_paths (usb_storage_devices sys)
                                 ∖ known_devices st)).
    { rewrite elem_of_elements, elem_of_difference. intros [Hc _].
      contradiction. }
    apply (poll_removed_fires p).
    + rewrite elem_of_elements, elem_of_difference. split; [|exact Hp].
      apply poll_inserted_known. exact Hk.
    + rewrite poll_inserted_cache by exact Hnew. exact Hd.
  - rewrite Hknown. exact Hp.
  - apply Hcache. left. exact Hk.
Qed.

Lemma refresh_cache_last devices (cache : gmap string device_info) d :
  NoDup (device <$> devices) -> d ∈ devices ->
  fold_left (fun c dev => <[device dev := dev]> c) devices cache
    !! device d = Some d.
Proof.
  revert cache. induction devices as [|x ds IH]; intros cache Hnd Hd;
    [inversion Hd|].
  rewrite fmap_cons in Hnd. apply NoDup_cons in Hnd as [Hx Hnd]. simpl.
  apply elem_of_cons in Hd as [->|Hd].
  - rewrite refresh_cache_lookup.
    + apply lookup_insert_eq.
    + unfold device_paths. rewrite elem_of_list_to_set. exact Hx.
  - apply IH; assumption.
Qed.

(** X5.  After a polling cycle the known set is the set of the enumerated paths
    and, when the enumeration lists every path once, each enumerated device
    is cached with the snapshot just enumerated. *)
Theorem polling_cycle_reconciles sys st :
  known_devices (fst (poll_cycle sys st))
  = device_paths (usb_storage_devices sys) /\
  (NoDup (device <$> usb_storage_devices sys) ->
   forall d, d ∈ usb_storage_devices sys ->
     device_info_cache (fst (poll_cycle sys st)) !! device d = Some d).
Proof.
  rewrite poll_cycle_fst. cbv zeta. split; [reflexivity|].
  intros Hnd d Hd. simpl. apply refresh_cache_last; assumption.
Qed.

(** X6.  On the event strategy, an [add] notification for a device that is not
    tracked followed by a [remove] notification for it brings the monitor
    back to the state before, with one insert callback (when the device was
    mounted) and one removal callback. *)
Theorem event_add_then_remove_restores sys sys' p info st :
  str_truthy p = true ->
  is_usb_storage_device sys p = true ->
  get_device_info sys p = Some info ->
  p ∉ known_devices st ->
  device_info_cache st !! p = None ->
  let ev_add := {| udev_action := "add"; device_node := Some p |} in
  let ev_remove := {| udev_action := "remove"; device_node := Some p |} in
  monitor_with_pyudev [(sys, ev_add); (sys', ev_remove)] st
  = (st, (if is_device_mounted sys p then [OnInsert info] else [])
         ++ [OnRemove info]).
Proof.
  intros Ht Hu Hi Hk Hc ev_add ev_remove.
  assert (Hdev : device info = p).
  { unfold get_device_info in Hi. destruct (lsblk_row sys p); [|discriminate].
    injection Hi as <-. reflexivity. }
  unfold monitor_with_pyudev. cbn [for_each fst snd].
  unfold and_then at 1.
  unfold handle_event at 1. cbn [ev_add udev_action device_node].
  change (String.eqb "add" "add") with true. cbn iota.
  unfold handle_device_add. rewrite Ht, Hu, Hi. cbn [negb].
  unfold device_inserted. rewrite Hdev.
  assert (Hrem : forall t,
    (let '(st2, t2) :=
       and_then (handle_event sys' ev_remove) skip
         {| known_devices := {[p]} ∪ known_devices st;
            device_info_cache := <[p := info]> (device_info_cache st) |} in
     (st2, t ++ t2)) = (st, t ++ [OnRemove info])).
  { intros t. unfold and_then, handle_event.
    cbn [ev_remove udev_action device_node].
    change (String.eqb "remove" "add") with false.
    change (String.eqb "remove" "remove") with true. cbn iota.
    unfold handle_device_remove. rewrite Ht. cbn [negb device_info_cache].
    rewrite lookup_insert_eq. unfold and_then, device_removed, del_cache, skip.
    cbn [known_devices device_info_cache]. rewrite Hdev.
    rewrite app_nil_r. f_equal. destruct st as [k c]. f_equal.
    - apply set_eq. intros x. rewrite elem_of_difference, elem_of_union,
        elem_of_singleton. cbn in Hk. split.
      + intros [[->|Hx] Hn]; [contradiction | exact Hx].
      + intros Hx. split; [right; exact Hx|]. intros ->. contradiction.
    - cbn in Hc |- *. rewrite delete_insert_eq. apply delete_id. exact Hc. }
  destruct (is_device_mounted sys p); apply Hrem.
Qed.

End MonitorCycles.

Section EnumerationFacts.
Import USBMonitor.

Variable strip_tree : string -> string.
Variable is_usb_storage : string -> bool.

(** X20.  Every snapshot enumerated by [_get_usb_storage_devices] comes
    from a line of at least six words whose type is [part] and whose
    transport is [usb]; it carries a non-empty mount point, the transport
    [usb] and a device path that passed the USB storage check.  Lines with
    fewer than six words give nothing. *)
Theorem enumeration_lists_only_mounted_usb_partitions rows :
  (forall d, d ∈ get_usb_storage_devices strip_tree is_usb_storage rows ->
     transport d = "usb" /\
     (exists m, mount_point d = Some m /\ str_truthy m = true) /\
     is_usb_storage (device d) = true /\
     exists row, row ∈ rows /\ (6 <= length row)%nat /\
                 row !! 4%nat = Some "part" /\
                 row !! 0%nat ≫= (fun n => Some ("/dev/" +:+ strip_tree n))
                 = Some (device d)) /\
  (Forall (fun row => (length row < 6)%nat) rows ->
   get_usb_storage_devices strip_tree is_usb_storage rows = []).
Proof.
  split.
  - intros d Hd. unfold get_usb_storage_devices in Hd.
    apply list_elem_of_omap in Hd as (row & Hrow & Hdev).
    destruct row as [|p0 [|p1 [|p2 [|p3 [|p4 [|p5 rest]]]]]];
      try discriminate Hdev.
    cbn [device_of_row] in Hdev.
    destruct (String.eqb p4 "part") eqn:E4; [|discriminate Hdev].
    destruct (String.eqb p5 "usb") eqn:E5; [|discriminate Hdev].
    destruct (String.eqb p3 "") eqn:E3; [discriminate Hdev|].
    cbn [andb opt_truthy] in Hdev.
    destruct (str_truthy p3) eqn:Et; [|discriminate Hdev].
    cbn [andb] in Hdev.
    destruct (is_usb_storage ("/dev/" +:+ strip_tree p0)) eqn:Eu;
      [|discriminate Hdev].
    injection Hdev as <-. cbn [transport mount_point device].
    apply String.eqb_eq in E4, E5. subst p4 p5.
    split; [reflexivity|]. split; [exists p3; auto|]. split; [exact Eu|].
    eexists. split; [exact Hrow|]. split; [cbn [length]; lia|].
    split; reflexivity.
  - intros H. unfold get_usb_storage_devices.
    induction H as [|row rows' Hlen _ IH]; [reflexivity|].
    cbn [omap list_omap]. fold (omap (device_of_row strip_tree is_usb_storage) rows').
    rewrite IH.
    destruct row as [|p0 [|p1 [|p2 [|p3 [|p4 [|p5 rest]]]]]]; try reflexivity.
    cbn [length] in Hlen. lia.
Qed.

End EnumerationFacts.

(* ===================================================================== *)
(** ** Further properties of the pipeline *)
(* ===================================================================== *)

Section PipelineExtras.
Import Daemon Examples.

(** One case distinction on the next answer the pipeline looks at. *)
Ltac next_answer c :=
  match goal with
  | |- context [USBMonitor.mount_point ?d] =>
      destruct (USBMonitor.mount_point d) eqn:?
  | |- context [str_truthy ?s] => is_var s; destruct (str_truthy s) eqn:?
  | |- context [os_path_exists c ?m] => destruct (os_path_exists c m) eqn:?
  | |- context [scan_directory c ?m] => destruct (scan_directory c m) eqn:?
  | |- context [infected_files ?s] => destruct (infected_files s) eqn:?
  | |- context [safe_files ?s] => destruct (safe_files s) eqn:?
  | |- context [create_zip c ?l] =>
      destruct (create_zip c l) as [[?|]|?] eqn:?
  | |- context [upload_file c ?z] =>
      destruct (upload_file c z) as [[? ? ?|?]|?] eqn:?
  | |- context [create_public_share c ?r] =>
      destruct (create_public_share c r) as [[?|]|?] eqn:?
  | |- context [get_email_address c] =>
      destruct (get_email_address c) as [?|] eqn:?
  | |- context [send_notification c ?a ?l ?z] =>
      destruct (send_notification c a l z) as [[|]|?] eqn:?
  end.

Ltac all_answers c :=
  unfold process_usb_drive, process_usb_drive_body;
  repeat (next_answer c; simpl).

Ltac no_event H :=
  repeat (apply elem_of_cons in H as [H|H]; [discriminate H|]);
  apply elem_of_nil in H; contradiction.

(** X7.  The last status of a job is [success] exactly when the job registered
    its artifact with the cleanup scheduler. *)
Theorem success_status_iff_cleanup_registered c dev :
  (exists m, last_status (process_usb_drive c dev) = Some (m, "success")) <->
  (exists path link, ScheduleDeletion path link ∈ process_usb_drive c dev).
Proof.
  all_answers c;
    try (split; [intros [m H]; discriminate H
                | intros (path & link & H); no_event H]).
  split; intros _.
  - eexists _, _. rewrite !elem_of_cons. do 12 right. left. reflexivity.
  - eexists. reflexivity.
Qed.

(** X8.  A job makes no call and sets no status exactly when the snapshot has no
    mount point, an empty one, or one that does not exist. *)
Theorem unusable_mount_point_does_nothing c dev :
  process_usb_drive c dev = [] <->
  (forall mount, USBMonitor.mount_point dev = Some mount ->
     str_truthy mount = false \/ os_path_exists c mount = false).
Proof.
  all_answers c;
    try (split; [discriminate|];
         intros H;
         match goal with
         | Hm : _ = Some ?m |- _ =>
             destruct (H m eq_refl) as [H'|H']; congruence
         end).
  - split; [|reflexivity]. intros _ mount [= <-]. right. assumption.
  - split; [|reflexivity]. intros _ mount [= <-]. left. assumption.
  - split; [|reflexivity]. intros _ mount [=].
Qed.

(** X9.  Nothing is uploaded unless the scan of the mount point returned
    without an infected file and the archive of its safe files was
    created. *)
Theorem upload_only_after_clean_scan c dev zip :
  UploadFile zip ∈ process_usb_drive c dev ->
  exists mount scan,
    USBMonitor.mount_point dev = Some mount /\
    scan_directory c mount = Returned scan /\
    infected_files scan = [] /\
    safe_files scan <> [] /\
    create_zip c (safe_files scan) = Returned (Some zip).
Proof.
  all_answers c; intros H;
    repeat (apply elem_of_cons in H as [H|H]; [try discriminate H|]);
    try (apply elem_of_nil in H; contradiction);
    injection H as ->;
    eexists _, _; (split; [reflexivity|]); (split; [eassumption|]);
    (split; [assumption|]); (split; [congruence|]); congruence.
Qed.

(** X10.  When a collaborator raises, the job ends with the status
    [Processing error] carrying the text of the exception, and has not
    registered anything with the cleanup scheduler. *)
Theorem raising_collaborator_ends_in_error c dev t e :
  process_usb_drive_body c dev = (t, Throw e) ->
  last_status (process_usb_drive c dev)
  = Some ("Processing error: " +:+ e, "error") /\
  Forall (fun ev => is_schedule_deletion ev = false) (process_usb_drive c dev).
Proof.
  unfold process_usb_drive. intros H. rewrite H. revert H.
  unfold process_usb_drive_body.
  repeat (next_answer c; simpl);
    intros H; try discriminate H;
    injection H as <- <-; split; try reflexivity; repeat constructor.
Qed.

(** X11.  Once the archive is uploaded and shared, the job registers it with the
    cleanup scheduler exactly when an address is given and the notification
    is sent; in every case the upload and the share link have been
    made. *)
Theorem uploaded_artifact_is_orphaned_without_notification
  c dev mount scan zip path remote_filename url link :
  USBMonitor.mount_point dev = Some mount ->
  str_truthy mount = true ->
  os_path_exists c mount = true ->
  scan_directory c mount = Returned scan ->
  infected_files scan = [] ->
  safe_files scan <> [] ->
  create_zip c (safe_files scan) = Returned (Some zip) ->
  str_truthy zip = true ->
  upload_file c zip = Returned (UploadSucceeded path remote_filename url) ->
  create_public_share c path = Returned (Some link) ->
  str_truthy link = true ->
  (UploadFile zip ∈ process_usb_drive c dev) /\
  (CreatePublicShare path ∈ process_usb_drive c dev) /\
  ((exists p l, ScheduleDeletion p l ∈ process_usb_drive c dev) <->
   (exists email, get_email_address c = Some email /\
                  str_truthy email = true /\
                  send_notification c email link zip = Returned true)).
Proof.
  intros Emount Etm Eex Escan Einf Esafe Ezip Etz Eup Eshare Ets.
  unfold process_usb_drive, process_usb_drive_body.
  rewrite Emount, Etm, Eex. simpl. rewrite Escan. simpl. rewrite Einf.
  destruct (safe_files scan) as [|f fs] eqn:E; [contradiction|].
  simpl. rewrite Ezip. simpl. rewrite Etz. simpl. rewrite Eup. simpl.
  rewrite Eshare. simpl. rewrite Ets. simpl.
  destruct (get_email_address c) as [email|] eqn:Eemail; simpl.
  - destruct (str_truthy email) eqn:Ete; simpl.
    + destruct (send_notification c email link zip) as [[|]|x] eqn:Esend;
        simpl; (split; [rewrite !elem_of_cons; tauto|]);
        (split; [rewrite !elem_of_cons; tauto|]).
      * split; [intros _; exists email; auto|].
        intros _. eexists _, _. rewrite !elem_of_cons. do 12 right. left.
        reflexivity.
      * split; [intros (p & l & H); no_event H|].
        intros (em & [= <-] & _ & H). congruence.
      * split; [intros (p & l & H); no_event H|].
        intros (em & [= <-] & _ & H). congruence.
    + split; [rewrite !elem_of_cons; tauto|].
      split; [rewrite !elem_of_cons; tauto|].
      split; [intros (p & l & H); no_event H|].
      intros (em & [= <-] & H & _). congruence.
  - split; [rewrite !elem_of_cons; tauto|].
    split; [rewrite !elem_of_cons; tauto|].
    split; [intros (p & l & H); no_event H|].
    intros (em & H & _). discriminate H.
Qed.

End PipelineExtras.

(* ===================================================================== *)
(** ** Further properties of the cleanup scheduler *)
(* ===================================================================== *)

Section LedgerOperations.


Lemma scheduler_eta s :
  {| cleanup_schedule := cleanup_schedule s; cleanup_db := cleanup_db s |} = s.
Proof. destruct s; reflexivity. Qed.






End LedgerOperations.

Section SweepExtras.

Variable World : Type.
Variable os_path_exists : World -> string -> bool.
Variable os_remove : World -> string -> bool * World.
Variable uploader_delete_file : World -> string -> result bool * World.

Local Abbreviation delete_file :=
  (delete_file World os_path_exists os_remove uploader_delete_file).
Local Abbreviation sweep :=
  (sweep World os_path_exists os_remove uploader_delete_file).
Local Abbreviation check_and_cleanup :=
  (check_and_cleanup World os_path_exists os_remove uploader_delete_file).
Local Abbreviation force_loop :=
  (force_loop World os_path_exists os_remove uploader_delete_file).
Local Abbreviation force_cleanup :=
  (force_cleanup World os_path_exists os_remove uploader_delete_file).

Lemma sweep_nothing_due now w schedule :
  Forall (fun item => is_due now item = false) schedule ->
  sweep now w schedule = ([], w).
Proof.
  induction 1 as [|item rest Hd _ IH]; [reflexivity|].
  simpl. rewrite Hd. exact IH.
Qed.

(** X14.  A sweep at which no entry is due calls no collaborator and leaves the
    scheduler, its file and the world as they are. *)
Theorem sweep_with_nothing_due_changes_nothing now w s :
  Forall (fun item => is_due now item = false) (cleanup_schedule s) ->
  check_and_cleanup now w s = (Some s, w, []).
Proof.
  intros H. unfold CleanupScheduler.check_and_cleanup.
  rewrite (sweep_nothing_due now w _ H). cbn.
  rewrite scheduler_eta. reflexivity.
Qed.

(** X15.  A sweep attempts an entry only when its retention period has fully
    elapsed: the time since the upload is at least the retention days. *)
Theorem sweep_never_deletes_early now w s a :
  a ∈ snd (check_and_cleanup now w s) ->
  (attempted a ∈ cleanup_schedule s) /\
  (delete_after_days (attempted a) * microseconds_per_day
   <= to_microseconds now - to_microseconds (upload_time (attempted a)))%Z.
Proof.
  intros Ha.
  assert (Hin : attempted a ∈ attempted <$> snd (check_and_cleanup now w s))
    by (apply list_elem_of_fmap_2; exact Ha).
  rewrite check_and_cleanup_log, sweep_attempts in Hin.
  apply list_elem_of_filter in Hin as [Hdue Hin]. split; [exact Hin|].
  unfold is_due in Hdue. apply Z.leb_le in Hdue.
  apply days_between_ge. exact Hdue.
Qed.


Lemma force_loop_spec w items schedule :
  items ⊆+ schedule ->
  exists schedule',
    fst (fst (force_loop w items schedule)) = Some schedule' /\
    attempted <$> snd (force_loop w items schedule) = items /\
    schedule
    ≡ₚ (attempted <$> filter (fun a => succeeded a = true)
                             (snd (force_loop w items schedule)))
       ++ schedule' /\
    sublist schedule' schedule.
Proof.
  revert w schedule. induction items as [|item rest IH]; intros w schedule Hsub.
  - exists schedule. repeat split; reflexivity.
  - cbn [CleanupScheduler.force_loop].
    pose proof (delete_file_attempted World os_path_exists os_remove
                  uploader_delete_file w item) as Hat.
    destruct (delete_file w item) as [a w1]. cbn [fst] in Hat.
    destruct (succeeded a) eqn:Es.
    + assert (Hin : item ∈ schedule)
        by (eapply elem_of_submseteq; [|exact Hsub]; constructor).
      destruct (list_remove_Some item schedule Hin) as (sch1 & E1 & Hp1 & Hs1).
      rewrite E1.
      assert (Hsub1 : rest ⊆+ sch1).
      { rewrite Hp1 in Hsub. apply (submseteq_app_inv_l rest sch1 [item]).
        exact Hsub. }
      destruct (IH w1 sch1 Hsub1) as (sch' & E' & Hlog & Hp' & Hs').
      destruct (force_loop w1 rest sch1) as [[r w2] log]. cbn [fst snd] in *.
      exists sch'. split; [exact E'|]. split.
      * rewrite fmap_cons, Hat, Hlog. reflexivity.
      * rewrite filter_cons_True by exact Es. rewrite fmap_cons, Hat.
        split; [|exact (transitivity Hs' Hs1)].
        rewrite Hp1, Hp'. reflexivity.
    + assert (Hsub1 : rest ⊆+ schedule).
      { etrans; [|exact Hsub]. apply submseteq_cons. reflexivity. }
      destruct (IH w1 schedule Hsub1) as (sch' & E' & Hlog & Hp' & Hs').
      destruct (force_loop w1 rest schedule) as [[r w2] log].
      cbn [fst snd] in *.
      exists sch'. split; [exact E'|]. split.
      * rewrite fmap_cons, Hat, Hlog. reflexivity.
      * rewrite filter_cons_False by (rewrite Es; discriminate).
        split; assumption.
Qed.

(** X17.  [force_cleanup] never fails.  It attempts every entry with the given
    file name, or every entry when no name is given, whether due or not;
    the count it returns is the number of entries it took off the ledger,
    which are the attempted entries whose deletion succeeded. *)
Theorem force_cleanup_ignores_due_dates name w s :
  exists s' n,
    fst (fst (force_cleanup name w s)) = Some (s', n) /\
    attempted <$> snd (force_cleanup name w s)
    = (if opt_truthy name
       then filter (fun item => filename item = default "" name)
                   (cleanup_schedule s)
       else cleanup_schedule s) /\
    cleanup_schedule s
    ≡ₚ (attempted <$> filter (fun a => succeeded a = true)
                             (snd (force_cleanup name w s)))
       ++ cleanup_schedule s' /\
    sublist (cleanup_schedule s') (cleanup_schedule s) /\
    (length (cleanup_schedule s') + n = length (cleanup_schedule s))%nat.
Proof.
  unfold CleanupScheduler.force_cleanup.
  set (items := match name with
                | Some n => if str_truthy n then _ else _
                | None => _
                end).
  assert (Hitems : items = if opt_truthy name
                           then filter (fun item => filename item
                                                    = default "" name)
                                       (cleanup_schedule s)
                           else cleanup_schedule s).
  { unfold items. destruct name as [n|]; [|reflexivity]. simpl.
    destruct (str_truthy n); reflexivity. }
  assert (Hsub : items ⊆+ cleanup_schedule s).
  { rewrite Hitems. destruct (opt_truthy name); [|reflexivity].
    apply sublist_submseteq, sublist_filter. }
  destruct (force_loop_spec w items (cleanup_schedule s) Hsub)
    as (sch' & E & Hlog & Hp & Hs).
  destruct (force_loop w items (cleanup_schedule s)) as [[r w'] log].
  cbn [fst snd] in *. subst r.
  eexists _, _. split; [reflexivity|]. cbn [fst snd cleanup_schedule].
  split; [rewrite Hlog; exact Hitems|]. split; [exact Hp|].
  split; [exact Hs|].
  rewrite (Permutation_length Hp), length_app, length_fmap. lia.
Qed.

End SweepExtras.

Lemma filter_split_length {A : Type} (P : A -> Prop)
  `{forall x, Decision (P x)} (l : list A) :
  length l
  = (length (filter (fun x => ~ P x) l) + length (filter P l))%nat.
Proof.
  induction l as [|x l IH]; [reflexivity|].
  rewrite !filter_cons. destruct (decide (P x)) as [Hp|Hp].
  - destruct (decide (~ P x)); [contradiction|]. cbn [length]. lia.
  - destruct (decide (~ P x)); [|contradiction]. cbn [length]. lia.
Qed.

Section StatusReport.

Variable strftime : datetime -> string.

Lemma expired_iff_due now item :
  (days_until_deletion (status_of strftime now item) <=? 0)%Z
  = is_due now item.
Proof.
  unfold status_of, is_due. cbn [days_until_deletion].
  destruct (Z.leb_spec (delete_after_days item)
              (days_between now (upload_time item)));
    [apply Z.leb_le | apply Z.leb_gt]; lia.
Qed.

Lemma status_lines_spec now schedule :
  status_lines strftime now schedule
  = (status_of strftime now
       <$> filter (fun item => is_due now item <> true) schedule,
     status_of strftime now
       <$> filter (fun item => is_due now item = true) schedule).
Proof.
  induction schedule as [|item rest IH]; [reflexivity|].
  cbn [status_lines]. rewrite IH, expired_iff_due, !filter_cons.
  destruct (is_due now item) eqn:E.
  - destruct (decide (true = true)); [|contradiction].
    destruct (decide (true <> true)); [contradiction|]. reflexivity.
  - destruct (decide (false = true)); [discriminate|].
    destruct (decide (false <> true)); [|contradiction]. reflexivity.
Qed.

(** X18.  The report of [get_cleanup_status] lists every entry once, in ledger
    order: under [expired_items] the entries that are due at that time,
    which are the entries a sweep at that time attempts, and under
    [pending_cleanup] the others. *)
Theorem cleanup_status_matches_sweep now s :
  let report := get_cleanup_status strftime now s in
  expired_items report
  = status_of strftime now
      <$> filter (fun item => is_due now item = true) (cleanup_schedule s) /\
  pending_cleanup report
  = status_of strftime now
      <$> filter (fun item => is_due now item <> true) (cleanup_schedule s) /\
  total_scheduled report
  = (length (pending_cleanup report) + length (expired_items report))%nat /\
  (forall World ex rm del (w : World),
     status_filename <$> expired_items report
     = filename <$> (attempted <$>
         snd (check_and_cleanup World ex rm del now w s))).
Proof.
  cbv zeta. unfold get_cleanup_status. rewrite status_lines_spec.
  cbn [expired_items pending_cleanup total_scheduled].
  split; [reflexivity|]. split; [reflexivity|]. split.
  - rewrite !length_fmap.
    apply (filter_split_length (fun item => is_due now item = true)).
  - intros World ex rm del w. rewrite check_and_cleanup_log, sweep_attempts.
    rewrite <- !list_fmap_compose. reflexivity.
Qed.

End StatusReport.

(* ===================================================================== *)
(** ** Further properties of the status record *)
(* ===================================================================== *)

Section StatusExtras.
Import StatusManager.

Lemma step_processing_count st o :
  processing_count (step st o)
  = (processing_count st + (if is_increment o then 1 else 0))%Z.
Proof. destruct o; simpl; lia. Qed.

Lemma run_processing_count ops :
  processing_count (run ops)
  = Z.of_nat (length (filter (fun o => is_increment o = true) ops)).
Proof.
  induction ops as [|o ops IH] using rev_ind; [reflexivity|].
  rewrite run_snoc, step_processing_count, IH, filter_app, length_app.
  rewrite filter_cons, filter_nil.
  destruct (is_increment o).
  - destruct (decide (true = true)); [|contradiction]. cbn [length]. lia.
  - destruct (decide (false = true)); [discriminate|]. cbn [length]. lia.
Qed.

Lemma step_keeps_phase st o :
  is_set_status o = false ->
  daemon_status (step st o) = daemon_status st /\
  message (step st o) = message st /\
  last_activity (step st o) = last_activity st /\
  uptime (step st o) = uptime st.
Proof. destruct o; simpl; intros H; try discriminate H; auto. Qed.

Lemma fold_keeps_phase ops st :
  Forall (fun o => is_set_status o = false) ops ->
  daemon_status (fold_left step ops st) = daemon_status st /\
  message (fold_left step ops st) = message st /\
  last_activity (fold_left step ops st) = last_activity st /\
  uptime (fold_left step ops st) = uptime st.
Proof.
  intros H. revert st. induction H as [|o ops Ho _ IH]; intros st; [auto|].
  simpl. destruct (IH (step st o)) as (H1 & H2 & H3 & H4).
  destruct (step_keeps_phase st o Ho) as (G1 & G2 & G3 & G4).
  rewrite H1, H2, H3, H4. auto.
Qed.

(** X19.  The processing count of the status record is the number of
    [increment_processing_count] calls made, and phase, message, last
    activity and uptime are those of the last [set_status] call, whatever
    was called after it. *)
Theorem status_counts_and_last_set_status_wins (ops : list op) :
  processing_count (run ops)
  = Z.of_nat (length (filter (fun o => is_increment o = true) ops)) /\
  (forall before msg phase now up after,
     ops = before ++ SetStatus msg phase now up :: after ->
     Forall (fun o => is_set_status o = false) after ->
     daemon_status (run ops) = phase /\
     message (run ops) = msg /\
     last_activity (run ops) = Some now /\
     uptime (run ops) = Some up).
Proof.
  split; [apply run_processing_count|].
  intros before msg phase now up after -> Hafter.
  unfold run. rewrite fold_left_app. cbn [fold_left].
  destruct (fold_keeps_phase after
              (step (fold_left step before init) (SetStatus msg phase now up))
              Hafter) as (H1 & H2 & H3 & H4).
  rewrite H1, H2, H3, H4. auto.
Qed.

End StatusExtras.

(* ===================================================================== *)
(** ** The further properties on the sample devices, jobs and ledgers *)
(* ===================================================================== *)

Section MonitorInstances.
Import USBMonitor Examples.

Lemma polling_known_path_not_refired_witness :
  insert_callbacks "/dev/sdb1"
    (snd (poll_cycle stick_mounted (fst (poll_cycle stick_mounted init))))
  = [].
Proof.
  apply (polling_known_path_not_refired stick_mounted
           (fst (poll_cycle stick_mounted init)) "/dev/sdb1").
  apply (bool_decide_eq_true_1 _ (Decision0 := _)). vm_compute. reflexivity.
Defined.

Lemma polling_fires_once_for_new_device_witness :
  exists d,
    find_device (usb_storage_devices stick_mounted) "/dev/sdb1" = Some d /\
    device d = "/dev/sdb1" /\
    insert_callbacks "/dev/sdb1" (snd (poll_cycle stick_mounted init))
    = (if is_device_mounted stick_mounted "/dev/sdb1" then [d] else []) /\
    ("/dev/sdb1" ∈ known_devices (fst (poll_cycle stick_mounted init))).
Proof.
  apply (polling_fires_once_for_new_device stick_mounted init "/dev/sdb1").
  - apply (bool_decide_eq_true_1 _ (Decision0 := _)). vm_compute. reflexivity.
  - apply not_elem_of_empty.
Defined.

Lemma polling_reports_every_disappearance_witness :
  exists d,
    device_info_cache (fst (run [PollCycle stick_mounted] init)) !! "/dev/sdb1"
    = Some d /\
    device d = "/dev/sdb1" /\
    (OnRemove d
     ∈ snd (poll_cycle no_stick (fst (run [PollCycle stick_mounted] init)))) /\
    ("/dev/sdb1"
     ∉ known_devices
         (fst (poll_cycle no_stick
                 (fst (run [PollCycle stick_mounted] init))))) /\
    device_info_cache
      (fst (poll_cycle no_stick (fst (run [PollCycle stick_mounted] init))))
      !! "/dev/sdb1" = None.
Proof.
  apply (polling_reports_every_disappearance [PollCycle stick_mounted]
           no_stick "/dev/sdb1").
  - apply (bool_decide_eq_true_1 _ (Decision0 := _)). vm_compute. reflexivity.
  - apply not_elem_of_empty.
Defined.

Lemma polling_cycle_reconciles_witness :
  device_info_cache (fst (poll_cycle stick_mounted init)) !! device stick
  = Some stick.
Proof.
  apply (proj2 (polling_cycle_reconciles stick_mounted init)).
  - apply NoDup_singleton.
  - apply list_elem_of_singleton. reflexivity.
Defined.

Lemma event_add_then_remove_restores_witness :
  monitor_with_pyudev [(stick_mounted, add_stick); (no_stick, remove_stick)]
    init
  = (init, [OnInsert stick; OnRemove stick]).
Proof.
  apply (event_add_then_remove_restores stick_mounted no_stick "/dev/sdb1"
           stick init).
  - reflexivity.
  - reflexivity.
  - reflexivity.
  - apply not_elem_of_empty.
  - apply lookup_empty.
Defined.

Lemma enumeration_lists_only_mounted_usb_partitions_witness :
  get_usb_storage_devices (fun n => n) (fun _ => true)
    [["sdb"; "8G"; "disk"; "usb"]; ["sdb1"; "8G"; "/media/usb0"; "part"]]
  = [].
Proof.
  apply (proj2 (enumeration_lists_only_mounted_usb_partitions
                  (fun n => n) (fun _ => true) _)).
  apply List.Forall_cons; [cbn; lia|].
  apply List.Forall_cons; [cbn; lia|]. apply List.Forall_nil.
Defined.

End MonitorInstances.

Section PipelineInstances.
Import Daemon Examples.

Lemma unusable_mount_point_does_nothing_witness :
  process_usb_drive clean_run unmounted_stick = [].
Proof.
  apply (proj2 (unusable_mount_point_does_nothing clean_run unmounted_stick)).
  intros mount H. discriminate H.
Defined.

Lemma upload_only_after_clean_scan_witness :
  exists mount scan,
    USBMonitor.mount_point stick = Some mount /\
    scan_directory clean_run mount = Returned scan /\
    infected_files scan = [] /\
    safe_files scan <> [] /\
    create_zip clean_run (safe_files scan)
    = Returned (Some "/tmp/usb_transfer.zip").
Proof.
  apply (upload_only_after_clean_scan clean_run stick "/tmp/usb_transfer.zip").
  apply (list_elem_of_lookup_2 _ 5%nat). reflexivity.
Defined.

Lemma raising_collaborator_ends_in_error_witness :
  last_status (process_usb_drive scanner_down_run stick)
  = Some ("Processing error: clamd is not running", "error").
Proof.
  apply (raising_collaborator_ends_in_error scanner_down_run stick
           [SetStatus "Scanning files in /media/usb0" "scanning";
            ScanDirectory "/media/usb0"]
           "clamd is not running").
  reflexivity.
Defined.

Lemma uploaded_artifact_is_orphaned_without_notification_witness :
  UploadFile "/tmp/usb_transfer.zip" ∈ process_usb_drive no_address_run stick.
Proof.
  apply (uploaded_artifact_is_orphaned_without_notification no_address_run
           stick "/media/usb0" clean_scan "/tmp/usb_transfer.zip"
           "/uploads/usb_transfer.zip" "usb_transfer.zip"
           "https://cloud/uploads/usb_transfer.zip" "https://cloud/s/abc");
    try reflexivity.
  discriminate.
Defined.

End PipelineInstances.

Section SchedulerInstances.
Import Examples.



Lemma sweep_with_nothing_due_changes_nothing_witness :
  check_and_cleanup disk disk_exists disk_remove disk_cloud_confirms
    uploaded_at empty_disk (ledger_of [artifact])
  = (Some (ledger_of [artifact]), empty_disk, []).
Proof.
  apply (sweep_with_nothing_due_changes_nothing disk disk_exists disk_remove
           disk_cloud_confirms uploaded_at empty_disk (ledger_of [artifact])).
  apply List.Forall_cons; [vm_compute; reflexivity | apply List.Forall_nil].
Defined.

Lemma sweep_never_deletes_early_witness :
  (delete_after_days artifact * microseconds_per_day
   <= to_microseconds a_week_later - to_microseconds (upload_time artifact))%Z.
Proof.
  apply (sweep_never_deletes_early disk disk_exists disk_remove
           disk_cloud_confirms a_week_later empty_disk (ledger_of [artifact])
           {| attempted := artifact; local_deleted := true;
              cloud_deleted := true |}).
  apply (list_elem_of_lookup_2 _ 0%nat). vm_compute. reflexivity.
Defined.


End SchedulerInstances.

Section StatusInstances.
Import StatusManager.

Lemma status_counts_and_last_set_status_wins_witness :
  daemon_status
    (run [SetStatus "Uploading to Nextcloud" "uploading" "t1" "0:00:05";
          AddError "t2" "disk full"; IncrementProcessingCount])
  = "uploading".
Proof.
  apply (proj2 (status_counts_and_last_set_status_wins
                  [SetStatus "Uploading to Nextcloud" "uploading" "t1"
                     "0:00:05";
                   AddError "t2" "disk full"; IncrementProcessingCount])
           [] "Uploading to Nextcloud" "uploading" "t1" "0:00:05"
           [AddError "t2" "disk full"; IncrementProcessingCount]).
  - reflexivity.
  - repeat constructor.
Defined.

End StatusInstances.
